(** * spatialdata-io readers: MERSCOPE and Visium

    A shallow embedding of [readers/merscope.py] and [readers/read_visium.py]
    and the properties of their bookkeeping: filename scanning, path
    resolution, z-level splitting, boundary filtering, gene/blank column
    partition, region labelling, image checks and scale factors.

    Conventions of the embedding.
    - Python exceptions are values of [exn]; a computation that may raise
      has type [result A].
    - Strings are [string] over ASCII; [str.lower] and the character classes
      of [re] are the ASCII ones.
    - Finite numeric values (Python and numpy floats) are rationals [Q],
      compared with [Qeq_bool] and [Qle_bool]; NaN and infinities are not
      modelled.
    - A pandas data frame is an index plus a list of named columns
      (column-major), cells being tagged by their kind.
    - A Python [dict] is an association list in insertion order. *)

From Stdlib Require Import Ascii String QArith Qround.
From stdpp Require Import base list strings pretty sorting gmap.

Open Scope string_scope.

(** ** Python runtime: exceptions and the error monad *)

Module Py.

Inductive exn : Type :=
| AssertionError (msg : string)
| ValueError (msg : string)
| KeyError (key : string)
| IndexError
| ZeroDivisionError.

Inductive result (A : Type) : Type :=
| Ok (a : A)
| Raise (e : exn).
Arguments Ok {A} a.
Arguments Raise {A} e.

Definition bind {A B} (m : result A) (k : A → result B) : result B :=
  match m with
  | Ok a => k a
  | Raise e => Raise e
  end.

Definition raises {A} (m : result A) : Prop := ∃ e, m = Raise e.

(** [assert cond, msg] *)
Definition assert_ (cond : bool) (msg : string) : result unit :=
  if cond then Ok tt else Raise (AssertionError msg).

(** *** Strings *)

Definition ascii_lower (c : ascii) : ascii :=
  let n := N_of_ascii c in
  if ((65 <=? n) && (n <=? 90))%N then ascii_of_N (n + 32) else c.

(** [str.lower] *)
Fixpoint lower (s : string) : string :=
  match s with
  | EmptyString => EmptyString
  | String c s' => String (ascii_lower c) (lower s')
  end.

(** [needle in hay] *)
Fixpoint contains (hay needle : string) : bool :=
  String.prefix needle hay ||
  match hay with
  | EmptyString => false
  | String _ hay' => contains hay' needle
  end.

(** [sep.join(parts)] *)
Fixpoint join (sep : string) (parts : list string) : string :=
  match parts with
  | [] => ""
  | [p] => p
  | p :: ps => p +:+ sep +:+ join sep ps
  end.

(** *** Python dictionaries

    Insertion-ordered; assigning to an existing key replaces the value and
    keeps the key's position. *)

Definition dict (V : Type) : Type := list (string * V).

Fixpoint dict_set {V} (k : string) (v : V) (d : dict V) : dict V :=
  match d with
  | [] => [(k, v)]
  | (k', v') :: d' =>
      if String.eqb k' k then (k', v) :: d' else (k', v') :: dict_set k v d'
  end.

Fixpoint dict_get {V} (k : string) (d : dict V) : option V :=
  match d with
  | [] => None
  | (k', v') :: d' => if String.eqb k' k then Some v' else dict_get k d'
  end.

Definition keys {V} (d : dict V) : list string := map fst d.

(** [d[key]] *)
Definition dict_getitem {V} (d : dict V) (key : string) : result V :=
  match dict_get key d with
  | Some v => Ok v
  | None => Raise (KeyError key)
  end.

(** Boolean-mask selection, as numpy and pandas do it: keep the entries
    whose mask bit is set. *)
Fixpoint select {A} (mask : list bool) (l : list A) : list A :=
  match mask, l with
  | b :: mask', x :: l' => if b then x :: select mask' l' else select mask' l'
  | _, _ => []
  end.

End Py.

Export Py.

Declare Scope py_scope.
Notation "'let*' x ':=' m 'in' k" := (bind m (fun x => k))
  (at level 10, x pattern, m at level 100, k at level 200) : py_scope.
Open Scope py_scope.

(** ** pandas data frames *)

Module Pandas.

Inductive cell : Type :=
| Int (z : Z)
| Float (q : Q)
| Str (s : string)
| Obj (repr : string).

(** Elementwise [==]: numbers compare by value, strings by content. *)
Definition cell_eqb (a b : cell) : bool :=
  match a, b with
  | Int x, Int y => (x =? y)%Z
  | Int x, Float y => Qeq_bool (inject_Z x) y
  | Float x, Int y => Qeq_bool x (inject_Z y)
  | Float x, Float y => Qeq_bool x y
  | Str x, Str y => String.eqb x y
  | _, _ => false
  end.

Definition is_numeric (c : cell) : bool :=
  match c with
  | Int _ | Float _ => true
  | _ => false
  end.

Record DataFrame : Type := mkDataFrame {
  index : list cell;
  columns : list (string * list cell)
}.

Definition column_names (df : DataFrame) : list string := map fst (columns df).

(** [df[name]] *)
Fixpoint lookup_column (name : string) (cols : list (string * list cell))
  : option (list cell) :=
  match cols with
  | [] => None
  | (n, c) :: cols' => if String.eqb n name then Some c else lookup_column name cols'
  end.

Definition getitem (df : DataFrame) (name : string) : result (list cell) :=
  match lookup_column name (columns df) with
  | Some c => Ok c
  | None => Raise (KeyError name)
  end.

(** [df[mask]] with a boolean row mask *)
Definition mask_rows (df : DataFrame) (mask : list bool) : DataFrame :=
  {| index := select mask (index df);
     columns := map (λ nc, (nc.1, select mask nc.2)) (columns df) |}.

(** [df.loc[:, mask]] with a boolean column mask *)
Definition loc_columns (df : DataFrame) (mask : list bool) : DataFrame :=
  {| index := index df; columns := select mask (columns df) |}.

(** [df.drop(name, axis=1)] *)
Definition drop (df : DataFrame) (name : string) : result DataFrame :=
  if existsb (String.eqb name) (column_names df)
  then Ok {| index := index df;
             columns := filter (λ nc, nc.1 ≠ name) (columns df) |}
  else Raise (KeyError name).

(** [columns.str.lower().str.contains(pat)] for a pattern without regular
    expression metacharacters *)
Definition str_lower_contains (names : list string) (pat : string) : list bool :=
  map (λ n, contains (lower n) pat) names.

End Pandas.

Export Pandas.

(** ** pathlib (POSIX flavour) *)

Module Pathlib.

(** The root of a path: none, [/], or the special two-slash root [//]. *)
Inductive root : Type := Relative | Root1 | Root2.

Record Path : Type := mkPath {
  anchor : root;
  parts : list string
}.

Definition slash : ascii := "/"%char.
Definition dot : ascii := "."%char.

(** [s.split("/")] *)
Fixpoint split_slash (s : string) : list string :=
  match s with
  | EmptyString => [EmptyString]
  | String c s' =>
      if Ascii.eqb c slash then EmptyString :: split_slash s'
      else match split_slash s' with
           | [] => [String c EmptyString]
           | p :: ps => String c p :: ps
           end
  end.

Fixpoint leading_slashes (s : string) : nat :=
  match s with
  | String c s' => if Ascii.eqb c slash then S (leading_slashes s') else 0
  | EmptyString => 0
  end.

Definition parse_root (s : string) : root :=
  match leading_slashes s with
  | 0 => Relative
  | 2 => Root2
  | _ => Root1
  end.

Definition is_component (p : string) : bool :=
  negb (String.eqb p "") && negb (String.eqb p ".").

(** [Path(s)]: empty and [.] components are dropped. *)
Definition of_str (s : string) : Path :=
  {| anchor := parse_root s;
     parts := List.filter is_component (split_slash s) |}.

(** [str(path)] *)
Definition to_str (p : Path) : string :=
  match anchor p, parts p with
  | Relative, [] => "."
  | Relative, ps => join "/" ps
  | Root1, ps => "/" +:+ join "/" ps
  | Root2, ps => "//" +:+ join "/" ps
  end.

(** [path / other]: an absolute right operand replaces the left one. *)
Definition joinpath (p : Path) (other : string) : Path :=
  let o := of_str other in
  match anchor o with
  | Relative => {| anchor := anchor p; parts := parts p ++ parts o |}
  | _ => o
  end.

(** [path.name]: the final component, empty when there is none. *)
Definition name (p : Path) : string := List.last (parts p) "".

(** [s.rfind(".")], as an index, [None] for Python's [-1]. *)
Fixpoint rfind_dot (s : string) : option nat :=
  match s with
  | EmptyString => None
  | String c s' =>
      match rfind_dot s' with
      | Some i => Some (S i)
      | None => if Ascii.eqb c dot then Some 0 else None
      end
  end.

(** [path.stem]: the final component without its last suffix; a leading
    or a trailing dot does not start a suffix. *)
Definition stem (p : Path) : string :=
  let n := name p in
  match rfind_dot n with
  | Some i =>
      if ((0 <? i) && (i <? String.length n - 1))%nat then String.substring 0 i n else n
  | None => n
  end.

End Pathlib.

Export Pathlib.

Notation "p // s" := (joinpath p s) (at level 40, left associativity) : py_scope.

(** ** re: the fragment used by the scanner *)

Module Re.

Inductive regex : Type :=
| Lit (s : string)
| AnyChar
| ClassPlus (cls : ascii → bool)
| ClassOpt (cls : ascii → bool)
| Cat (r1 r2 : regex)
| Group (name : string) (r : regex).

(** A match object: the named groups that took part in the match. *)
Definition Match : Type := dict string.

Fixpoint skip (n : nat) (s : string) : string :=
  match n, s with
  | S n', String _ s' => skip n' s'
  | _, _ => s
  end.

(** The remainders left by a greedy [cls+], longest consumption first. *)
Fixpoint plus_rests (cls : ascii → bool) (s : string) : list string :=
  match s with
  | String c s' => if cls c then plus_rests cls s' ++ [s'] else []
  | EmptyString => []
  end.

Definition opt_rests (cls : ascii → bool) (s : string) : list string :=
  match s with
  | String c s' => if cls c then [s'; s] else [s]
  | EmptyString => [s]
  end.

Definition newline : ascii := "010"%char.

(** Backtracking matcher anchored at the start of [s]: every way of
    matching [r], in the order the backtracking engine tries them, each with
    its groups and the unread remainder. *)
Fixpoint rmatch (r : regex) (s : string) : list (Match * string) :=
  match r with
  | Lit l =>
      if String.prefix l s then [([] : Match, skip (String.length l) s)] else []
  | AnyChar =>
      match s with
      | String c s' => if Ascii.eqb c newline then [] else [([] : Match, s')]
      | EmptyString => []
      end
  | ClassPlus cls => map (λ rest, ([] : Match, rest)) (plus_rests cls s)
  | ClassOpt cls => map (λ rest, ([] : Match, rest)) (opt_rests cls s)
  | Cat r1 r2 =>
      flat_map (λ m1 : Match * string,
                  map (λ m2 : Match * string, ((m1.1 ++ m2.1)%list, m2.2))
                      (rmatch r2 m1.2))
               (rmatch r1 s)
  | Group n r' =>
      map (λ m : Match * string,
             ((n, String.substring 0 (String.length s - String.length m.2) s) :: m.1,
              m.2))
          (rmatch r' s)
  end.

(** [re.search(r, s)]: the first match at the leftmost position that has one. *)
Fixpoint search (r : regex) (s : string) : option Match :=
  match rmatch r s with
  | (g, _) :: _ => Some g
  | [] =>
      match s with
      | String _ s' => search r s'
      | EmptyString => None
      end
  end.

(** [match.group(name)] *)
Definition group (name : string) (m : Match) : option string := dict_get name m.

Definition in_range (lo hi : N) (c : ascii) : bool :=
  let n := N_of_ascii c in ((lo <=? n) && (n <=? hi))%N.

(** [[0-9]] *)
Definition digit (c : ascii) : bool := in_range 48 57 c.

(** [\w] on ASCII: letters, digits and the underscore *)
Definition word (c : ascii) : bool :=
  in_range 97 122 c || in_range 65 90 c || digit c || Ascii.eqb c "_"%char.

End Re.

Export Re.

(** ** More of pandas: conversions, counting, sorting *)

Module Series.

(** [int(x)] on a numeric scalar truncates toward zero.  Coordinate columns
    are numeric; a non-numeric cell is rejected here. *)
Definition py_int (c : cell) : result Z :=
  match c with
  | Int z => Ok z
  | Float q => Ok (Z.quot (Qnum q) (Zpos (Qden q)))
  | Str s => Raise (ValueError ("invalid literal for int(): " +:+ s))
  | Obj r => Raise (ValueError ("int() argument: " +:+ r))
  end.

(** The value [int(x)] returns on a numeric scalar. *)
Definition int_value (c : cell) : Z :=
  match c with
  | Int z => z
  | Float q => Z.quot (Qnum q) (Zpos (Qden q))
  | _ => 0
  end.

(** [series.astype(str)], elementwise; [float_repr] is Python's [repr] of a
    float, which this development leaves open. *)
Definition astype_str (float_repr : Q → string) (c : cell) : cell :=
  match c with
  | Int z => Str (pretty z)
  | Float q => Str (float_repr q)
  | Str s => Str s
  | Obj r => Str r
  end.

Fixpoint mapM {A B} (f : A → result B) (l : list A) : result (list B) :=
  match l with
  | [] => Ok []
  | x :: l' =>
      let* y := f x in
      let* ys := mapM f l' in
      Ok (y :: ys)
  end.

(** A [for] loop threading an accumulator, stopping at the first exception. *)
Fixpoint foldM {A S} (body : S → A → result S) (l : list A) (s : S) : result S :=
  match l with
  | [] => Ok s
  | x :: l' =>
      let* s' := body s x in
      foldM body l' s'
  end.

(** Stable sort by an integer key (what [sorted(l, key=...)] computes):
    insertion from the right, an element going before the equal keys that
    followed it. *)
Fixpoint insert_by {A} (k : Z) (x : A) (l : list (Z * A)) : list (Z * A) :=
  match l with
  | [] => [(k, x)]
  | (k', y) :: l' =>
      if (k <=? k')%Z then (k, x) :: (k', y) :: l'
      else (k', y) :: insert_by k x l'
  end.

(** The order [isort] sorts by. *)
Definition key_le {A} (a b : Z * A) : Prop := (a.1 ≤ b.1)%Z.

Fixpoint isort {A} (l : list (Z * A)) : list (Z * A) :=
  match l with
  | [] => []
  | (k, x) :: l' => insert_by k x (isort l')
  end.

(** [sorted(l, key=key)]: the keys are computed first, any exception of
    [key] propagating. *)
Definition sorted {A} (key : A → result Z) (l : list A) : result (list A) :=
  let* ks := mapM key l in
  Ok (map snd (isort (combine ks l))).

(** The distinct values of a column, in order of first occurrence. *)
Fixpoint unique (l : list cell) : list cell :=
  match l with
  | [] => []
  | x :: l' => x :: List.filter (λ y, negb (cell_eqb x y)) (unique l')
  end.

Definition count (x : cell) (l : list cell) : nat :=
  length (List.filter (cell_eqb x) l).

(** [series.value_counts().index]: the distinct values by decreasing
    count, ties in order of first occurrence. *)
Definition value_counts_index (l : list cell) : list cell :=
  map snd (isort (map (λ x, ((- Z.of_nat (count x l))%Z, x)) (unique l))).

End Series.

Export Series.

(** ** readers/merscope.py *)

Module Merscope.

(** The members of [spatialdata_io._constants._constants.MerscopeKeys] the
    reader uses.  The constants module is not among the sources at hand, so
    its values are parameters of everything below. *)
Record MerscopeKeys : Type := mkMerscopeKeys {
  IMAGES_DIR : string;
  TRANSFORMATION_FILE : string;
  TRANSCRIPTS_FILE : string;
  BOUNDARIES_FILE : string;
  COUNTS_FILE : string;
  CELL_METADATA_FILE : string;
  CELLPOSE_BOUNDARIES : string;
  WATERSHED_BOUNDARIES : string;
  VPT_NAME_COUNTS : string;
  VPT_NAME_OBS : string;
  VPT_NAME_BOUNDARIES : string;
  INSTANCE_KEY : string;
  CELL_X : string;
  CELL_Y : string;
  GLOBAL_X : string;
  GLOBAL_Y : string;
  GLOBAL_Z : string;
  Z_INDEX : string
}.

(** A path argument: a [str] or a [Path]. *)
Inductive pathlike : Type :=
| PStr (s : string)
| PPath (p : Path).

(** [Path(x)] *)
Definition Path_ (x : pathlike) : Path :=
  match x with
  | PStr s => of_str s
  | PPath p => p
  end.

(** The [vpt_outputs] argument by its runtime type. *)
Inductive vpt_outputs_t : Type :=
| VptNone
| VptStr (s : string)
| VptPath (p : Path)
| VptDict (d : dict pathlike)
| VptOther (type_repr : string).

(** *** [_scan_images] *)

(** [[\w|-]]: a word character, a pipe or a hyphen *)
Definition stain_char (c : ascii) : bool :=
  word c || Ascii.eqb c "|"%char || Ascii.eqb c "-"%char.

(** [r"mosaic_(?P<stain>[\w|-]+[0-9]?)_z(?P<z>[0-9]+).tif"] *)
Definition exp : regex :=
  Cat (Lit "mosaic_")
 (Cat (Group "stain" (Cat (ClassPlus stain_char) (ClassOpt digit)))
 (Cat (Lit "_z")
 (Cat (Group "z" (ClassPlus digit))
 (Cat AnyChar
      (Lit "tif"))))).

(** The directory is given by the names of its entries.  The two results
    are Python sets turned into lists: their order is the sets' own. *)
Definition _scan_images (file_names : list string) : list string * list string :=
  let matches := map (search exp) file_names in
  let stainings : gset string :=
    list_to_set (omap (λ m : option Match, m ≫= group "stain") matches) in
  let z_levels : gset string :=
    list_to_set (omap (λ m : option Match, m ≫= group "z") matches) in
  (elements stainings, elements z_levels).

Fixpoint all_chars (cls : ascii → bool) (s : string) : bool :=
  match s with
  | EmptyString => true
  | String c s' => cls c && all_chars cls s'
  end.

(** A non-empty run of word characters, pipes or hyphens. *)
Definition is_run (s : string) : bool :=
  negb (String.eqb s "") && all_chars stain_char s.

(** A stain as the specification words it: a run, optionally followed by a
    single trailing digit. *)
Definition spec_stain (s : string) : bool :=
  is_run s ||
  existsb (λ i, is_run (String.substring 0 i s)
                && String.eqb (String.substring 0 1 (skip i s)) (skip i s)
                && negb (String.eqb (skip i s) "")
                && all_chars digit (skip i s))
          (seq 0 (String.length s)).

(** One or more decimal digits. *)
Definition spec_digits (s : string) : bool :=
  negb (String.eqb s "") && all_chars digit s.

(** The name the reader builds for a stain and a z-level (line 125). *)
Definition documented_name (stain z_level : string) : string :=
  "mosaic_" +:+ stain +:+ "_z" +:+ z_level +:+ ".tif".

(** The pattern as the specification words it, for comparison with [exp]:
    the whole name reads [mosaic_<stain>_z<digits>.tif]. *)
Definition spec_pattern (file_name : string) : bool :=
  String.prefix "mosaic_" file_name &&
  let rest := skip 7 file_name in
  let n := String.length rest in
  String.eqb (skip (n - 4) rest) ".tif" &&
  let mid := String.substring 0 (n - 4) rest in
  existsb (λ i, spec_stain (String.substring 0 i mid)
                && String.prefix "_z" (skip i mid)
                && spec_digits (skip (i + 2) mid))
          (seq 0 (String.length mid)).

(** *** [_get_file_paths] *)

Section get_file_paths.
Context (K : MerscopeKeys) (exists_ : Path → bool).

Definition boundary_not_found (plausible_boundaries : list Path) : string :=
  "Boundary file not found - expected to find one of these files: "
    +:+ join ", " (map to_str plausible_boundaries).

Definition _get_file_paths (path : Path) (vpt_outputs : vpt_outputs_t)
  : result (pathlike * pathlike * pathlike) :=
  let from_directory (vpt_outputs : Path) :=
    let plausible_boundaries :=
      [vpt_outputs // CELLPOSE_BOUNDARIES K; vpt_outputs // WATERSHED_BOUNDARIES K] in
    let valid_boundaries := List.filter exists_ plausible_boundaries in
    let* _ := assert_ (negb (Nat.eqb (length valid_boundaries) 0))
                      (boundary_not_found plausible_boundaries) in
    match valid_boundaries with
    | b :: _ =>
        Ok (PPath (vpt_outputs // COUNTS_FILE K),
            PPath (vpt_outputs // CELL_METADATA_FILE K),
            PPath b)
    | [] => Raise IndexError
    end in
  match vpt_outputs with
  | VptNone =>
      Ok (PPath (path // COUNTS_FILE K),
          PPath (path // CELL_METADATA_FILE K),
          PPath (path // BOUNDARIES_FILE K))
  | VptStr s => from_directory (of_str s)
  | VptPath p => from_directory p
  | VptDict d =>
      let* c := dict_getitem d (VPT_NAME_COUNTS K) in
      let* o := dict_getitem d (VPT_NAME_OBS K) in
      let* b := dict_getitem d (VPT_NAME_BOUNDARIES K) in
      Ok (c, o, b)
  | VptOther t =>
      Raise (ValueError
        ("`vpt_outputs` has to be either `None`, `str`, `Path`, or `dict`. Found type "
           +:+ t +:+ "."))
  end.
End get_file_paths.

(** *** The layers of the result

    The parsers of spatialdata ([Image3DModel], [ShapesModel], [TableModel])
    appear as the constructors of the records below; what they validate
    beyond that is outside this development. *)

Inductive transformation : Type :=
| Identity
| Affine (matrix : list (list Q)) (input_axes output_axes : list string).

(** A geopandas frame: a data frame and the name of its geometry column. *)
Record GeoDataFrame : Type := mkGeo {
  frame : DataFrame;
  geometry_name : string
}.

Record Shapes : Type := mkShapes {
  shapes_geo : GeoDataFrame;
  shapes_transformations : dict transformation
}.

Record Image (Array : Type) : Type := mkImage {
  image_stack : list Array;
  image_dims : list string;
  image_transformations : dict transformation;
  c_coords : list string
}.
Arguments mkImage {Array}.
Arguments image_stack {Array}.
Arguments c_coords {Array}.

Record AnnData : Type := mkAnnData {
  X : DataFrame;
  obs : DataFrame;
  obsm : dict DataFrame
}.

Record Table : Type := mkTable {
  table_adata : AnnData;
  region_key : string;
  region : list cell;
  instance_key : string
}.

Record SpatialData (Array : Type) : Type := mkSpatialData {
  shapes : dict Shapes;
  points : dict DataFrame;
  images : dict (Image Array);
  table : Table
}.
Arguments mkSpatialData {Array}.
Arguments shapes {Array}.
Arguments points {Array}.
Arguments images {Array}.
Arguments table {Array}.

(** *** Transcripts: one point layer per z-level (lines 148-156) *)

Definition transcripts_layer_name (z_level : Z) : string :=
  "transcripts_z" +:+ pretty z_level.

(** The rows at one z-level, without the z column. *)
Definition z_level_subset (transcripts : DataFrame) (z : list cell) (z_level : cell)
  : result DataFrame :=
  let transcripts_subset := mask_rows transcripts (map (λ c, cell_eqb c z_level) z) in
  drop transcripts_subset "z".

(** The body of the loop over the z-levels. *)
Definition add_z_level (transcripts : DataFrame) (z : list cell)
  (points : dict DataFrame) (z_level : cell) : result (dict DataFrame) :=
  let* transcripts_subset := z_level_subset transcripts z z_level in
  let* i := py_int z_level in
  Ok (dict_set (transcripts_layer_name i) transcripts_subset points).

Definition split_transcripts (transcripts : DataFrame) : result (dict DataFrame) :=
  let* z := getitem transcripts "z" in
  let z_levels := value_counts_index z in
  let* z_levels := sorted py_int z_levels in
  foldM (add_z_level transcripts z) z_levels [].

(** What is expected of an entry of [points]: it has no z column, and it is
    the subset at a z-level of the table, under the name of that level. *)
Definition is_z_layer (transcripts : DataFrame) (z : list cell)
  (kv : string * DataFrame) : Prop :=
  ("z" ∉ column_names kv.2) ∧
  ∃ z_level, z_level ∈ z ∧
             kv.1 = transcripts_layer_name (int_value z_level) ∧
             z_level_subset transcripts z z_level = Ok kv.2.

(** *** Polygons: the boundaries at z-index 0 (lines 159-164) *)

(** [geo_df.rename_geometry(col)] *)
Definition rename_geometry (geo_df : GeoDataFrame) (col : string) : result GeoDataFrame :=
  if existsb (String.eqb col) (column_names (frame geo_df))
  then Raise (ValueError ("Column named " +:+ col +:+ " already exists"))
  else Ok {| frame :=
               {| index := index (frame geo_df);
                  columns :=
                    map (λ nc, (if String.eqb nc.1 (geometry_name geo_df)
                                then col else nc.1, nc.2))
                        (columns (frame geo_df)) |};
             geometry_name := col |}.

Section polygons.
Context (K : MerscopeKeys) (float_repr : Q → string).

Definition z0_boundaries (geo_df : GeoDataFrame) : result GeoDataFrame :=
  let* geo_df := rename_geometry geo_df "geometry" in
  let* z_index := getitem (frame geo_df) (Z_INDEX K) in
  let geo_df :=
    {| frame := mask_rows (frame geo_df) (map (λ c, cell_eqb c (Int 0)) z_index);
       geometry_name := geometry_name geo_df |} in
  let* instance := getitem (frame geo_df) (INSTANCE_KEY K) in
  Ok {| frame := {| index := map (astype_str float_repr) instance;
                    columns := columns (frame geo_df) |};
        geometry_name := geometry_name geo_df |}.
End polygons.

(** *** Table: genes, blanks, region (lines 168-184) *)

(** [df[name] = col]: an existing column is replaced in place, a new one
    goes last. *)
Fixpoint set_column_in (name : string) (col : list cell)
  (cols : list (string * list cell)) : list (string * list cell) :=
  match cols with
  | [] => [(name, col)]
  | (n, c) :: cols' =>
      if String.eqb n name then (n, col) :: cols'
      else (n, c) :: set_column_in name col cols'
  end.

Definition set_column (df : DataFrame) (name : string) (col : list cell) : DataFrame :=
  {| index := index df; columns := set_column_in name col (columns df) |}.

(** [df[[a, b]]]: the columns of the given names, in the order given.  When
    a name is missing pandas raises one [KeyError] whose message lists every
    missing label; here the error carries the first missing name, and no
    statement depends on what it carries. *)
Definition getitems (df : DataFrame) (names : list string) : result DataFrame :=
  let* cols := mapM (λ n, let* c := getitem df n in Ok (n, c)) names in
  Ok {| index := index df; columns := cols |}.

(** A categorical series: its values and its categories. *)
Record Categorical : Type := mkCategorical {
  cat_values : list cell;
  cat_categories : list cell
}.

(** [pd.Series(value, index=idx, dtype="category")]: the scalar repeated
    along the index; it is the only category, unless there is no row. *)
Definition Series_category (value : cell) (idx : list cell) : Categorical :=
  {| cat_values := repeat value (length idx);
     cat_categories := match idx with [] => [] | _ :: _ => [value] end |}.

(** [anndata.AnnData(X, obs=obs)]: both must have the same number of rows. *)
Definition AnnData_ (x o : DataFrame) : result AnnData :=
  if Nat.eqb (length (index x)) (length (index o))
  then Ok {| X := x; obs := o; obsm := [] |}
  else Raise (ValueError "Observations annot. `obs` must have number of rows of `X`").

Definition set_obsm (adata : AnnData) (key : string) (v : DataFrame) : AnnData :=
  {| X := X adata; obs := obs adata; obsm := dict_set key v (obsm adata) |}.

Definition set_obs (adata : AnnData) (key : string) (col : list cell) : AnnData :=
  {| X := X adata; obs := set_column (obs adata) key col; obsm := obsm adata |}.

(** The test that routes a column: its lower-cased name contains [blank]. *)
Definition is_blank_name (n : string) : bool := contains (lower n) "blank".

(** [~data.columns.str.lower().str.contains("blank")] *)
Definition is_gene (data : DataFrame) : list bool :=
  map negb (str_lower_contains (column_names data) "blank").

Section table.
Context (K : MerscopeKeys).

Definition expression_table (path : Path) (data obs_ : DataFrame) : result Table :=
  let is_gene := is_gene data in
  let* adata := AnnData_ (loc_columns data is_gene) obs_ in
  let adata := set_obsm adata "blank" (loc_columns data (map negb is_gene)) in
  let* spatial := getitems (obs adata) [CELL_X K; CELL_Y K] in
  let adata := set_obsm adata "spatial" spatial in
  let region_series := Series_category (Str (stem path)) (index (obs adata)) in
  let adata := set_obs adata "region" (cat_values region_series) in
  let adata := set_obs adata (INSTANCE_KEY K) (index (obs adata)) in
  Ok {| table_adata := adata;
        region_key := "region";
        region := cat_categories region_series;
        instance_key := INSTANCE_KEY K |}.
End table.

(** *** [merscope] *)

(** What the reader asks of the file system and of the libraries that
    load files; [PointsModel_parse] is spatialdata's parser, which names the
    coordinate columns [x], [y], [z]. *)
Record World (Array : Type) : Type := mkWorld {
  exists_ : Path → bool;
  iterdir : Path → result (list string);
  genfromtxt : Path → result (list (list Q));
  imread : Path → result Array;
  dd_read_csv : Path → result DataFrame;
  read_parquet : Path → result GeoDataFrame;
  pd_read_csv : Path → result DataFrame;
  PointsModel_parse : DataFrame → dict string → result DataFrame;
  float_repr : Q → string
}.
Arguments exists_ {Array}.
Arguments iterdir {Array}.
Arguments genfromtxt {Array}.
Arguments imread {Array}.
Arguments dd_read_csv {Array}.
Arguments read_parquet {Array}.
Arguments pd_read_csv {Array}.
Arguments PointsModel_parse {Array}.
Arguments float_repr {Array}.

Section reader.
Context {Array : Type} (K : MerscopeKeys) (W : World Array).

(** Lines 121-133: one image layer per scanned z-level.  [da.stack] and
    [Image3DModel.parse] are constructors here: a layer is the list of the
    planes read, and what the two libraries refuse (planes of different
    shapes, say) is not modelled.  A statement on [read_images] therefore
    says what a run that returns has done, or covers runs that stack
    nothing. *)
Definition read_images (images_dir : Path) : result (dict (Image Array)) :=
  let* file_names := iterdir W images_dir in
  let '(stainings, z_levels) := _scan_images file_names in
  foldM (λ images z_level,
           let* im :=
             mapM (λ stain,
                     imread W (images_dir // documented_name stain z_level))
                  stainings in
           let parsed_im :=
             mkImage im ["c"; "z"; "y"; "x"] [("pixels", Identity)] stainings in
           Ok (dict_set ("z" +:+ z_level) parsed_im images))
        z_levels [].

Definition merscope (path : pathlike) (vpt_outputs : vpt_outputs_t) (read_tif : bool)
  : result (SpatialData Array) :=
  let path := Path_ path in
  let* paths := _get_file_paths K (exists_ W) path vpt_outputs in
  let '(count_path, obs_path, boundaries_path) := paths in
  let images_dir := path // IMAGES_DIR K in
  let* matrix := genfromtxt W (images_dir // TRANSFORMATION_FILE K) in
  let microns_to_pixels := Affine matrix ["x"; "y"] ["x"; "y"] in
  let* images := if read_tif then read_images images_dir else Ok [] in
  let* transcript_df := dd_read_csv W (path // TRANSCRIPTS_FILE K) in
  let* transcripts :=
    PointsModel_parse W transcript_df
      [("x", GLOBAL_X K); ("y", GLOBAL_Y K); ("z", GLOBAL_Z K)] in
  let* gene_categorical := getitem transcripts "gene" in
  let transcripts := set_column transcripts "gene" gene_categorical in
  let* points := split_transcripts transcripts in
  let* geo_df := read_parquet W (Path_ boundaries_path) in
  let* geo_df := z0_boundaries K (float_repr W) geo_df in
  let polygons :=
    {| shapes_geo := geo_df;
       shapes_transformations := [("pixels", microns_to_pixels)] |} in
  let shapes := [("polygons", polygons)] in
  let* data := pd_read_csv W (Path_ count_path) in
  let* obs := pd_read_csv W (Path_ obs_path) in
  let* table := expression_table K path data obs in
  Ok (mkSpatialData shapes points images table).
End reader.

End Merscope.

(** ** readers/read_visium.py *)

Module Visium.

Inductive dtype : Type :=
| bool_ | uint8 | uint16 | uint32 | uint64 | int8 | int16 | int32 | int64
| float16 | float32 | float64.

Definition dtype_eqb (a b : dtype) : bool :=
  match a, b with
  | bool_, bool_ | uint8, uint8 | uint16, uint16 | uint32, uint32
  | uint64, uint64 | int8, int8 | int16, int16 | int32, int32 | int64, int64
  | float16, float16 | float32, float32 | float64, float64 => true
  | _, _ => false
  end.

Definition is_integer_dtype (d : dtype) : bool :=
  match d with
  | uint8 | uint16 | uint32 | uint64 | int8 | int16 | int32 | int64 => true
  | _ => false
  end.

Definition is_floating_dtype (d : dtype) : bool :=
  match d with
  | float16 | float32 | float64 => true
  | _ => false
  end.

(** A three-dimensional numpy array, indexed (y, x, c), with the exact
    values of its entries. *)
Record NDArray : Type := mkNDArray {
  arr_dtype : dtype;
  arr_data : list (list (list Q))
}.

(** [xarray.DataArray(data, dims=...)] *)
Record DataArray : Type := mkDataArray {
  da_values : NDArray;
  da_dims : list string
}.

Definition flat (a : NDArray) : list Q := concat (concat (arr_data a)).

Definition Qmin_b (a b : Q) : Q := if Qle_bool a b then a else b.
Definition Qmax_b (a b : Q) : Q := if Qle_bool a b then b else a.

Definition zero_size (op : string) : exn :=
  ValueError ("zero-size array to reduction operation " +:+ op
              +:+ " which has no identity").

(** [np.min(img)] *)
Definition np_min (a : NDArray) : result Q :=
  match flat a with
  | [] => Raise (zero_size "minimum")
  | v :: vs => Ok (fold_left Qmin_b vs v)
  end.

(** [np.max(img)] *)
Definition np_max (a : NDArray) : result Q :=
  match flat a with
  | [] => Raise (zero_size "maximum")
  | v :: vs => Ok (fold_left Qmax_b vs v)
  end.

(** All the values of the array are within [0, 1]. *)
Definition normalized (a : NDArray) : Prop :=
  Forall (λ v, (0 <= v)%Q ∧ (v <= 1)%Q) (flat a).

(** [x.astype(np.uint8)] on one value: truncation, then wrap to 8 bits. *)
Definition to_uint8 (q : Q) : Q :=
  inject_Z (Z.quot (Qnum q) (Zpos (Qden q)) mod 256).

(** [(img * 255).astype(np.uint8)]; the product is taken exactly. *)
Definition rescale_uint8 (a : NDArray) : NDArray :=
  {| arr_dtype := uint8;
     arr_data := map (map (map (λ v, to_uint8 (v * 255)))) (arr_data a) |}.

(** Lines 60-62: the image must be float32 with all values in [0, 1]; the
    conjunction is evaluated left to right and stops at the first false
    operand. *)
Definition hires_image (hires : NDArray) : result DataArray :=
  let img := {| da_values := hires; da_dims := ["y"; "x"; "c"] |} in
  let* cond :=
    if dtype_eqb (arr_dtype hires) float32 then
      let* lo := np_min hires in
      if Qle_bool 0 lo then
        let* hi := np_max hires in
        Ok (Qle_bool hi 1)
      else Ok false
    else Ok false in
  let* _ := assert_ cond "" in
  Ok {| da_values := rescale_uint8 hires; da_dims := da_dims img |}.

(** [a / b] on Python numbers: division by zero raises.  The quotient is
    the exact rational; the floating-point quotient is its rounding, so the
    value is used below only where the division is exact in binary floating
    point (1 / 0.5). *)
Definition truediv (a b : Q) : result Q :=
  if Qeq_bool b 0 then Raise ZeroDivisionError else Ok (a / b)%Q.

(** [spatialdata.Scale(scale=...)] *)
Record Scale : Type := mkScale { scale : list Q }.

(** Line 65: [np.array([1.0] + [1 / tissue_hires_scalef] * 2)] *)
Definition scale_factors (tissue_hires_scalef : Q) : result (list Q) :=
  let* inv := truediv 1 tissue_hires_scalef in
  Ok ([1%Q] ++ repeat inv 2)%list.

(** Modelled from the spec: which axis spatialdata's [Scale] applies each
    entry of the vector to.  [Scale] is not among the sources, and the reader
    fixes only the vector [[1.0, 1/s, 1/s]] (line 65) and the dims
    [(y, x, c)] of the image (line 60).  The spec reads the transform as
    "the inverse of the hi-res scale factor applied to both spatial axes,
    identity on the channel axis": the leading entry is the channel's, the
    two others are the spatial axes'. *)
Definition scale_axes : list string := ["c"; "y"; "x"].

(** Modelled from the spec: the factor [Scale] applies on an axis, the
    entry of the vector at the position of the axis in [scale_axes]. *)
Definition factor_on (t : Scale) (axis : string) : option Q :=
  dict_get axis (combine scale_axes (scale t)).

(** One library of [adata.uns["spatial"]]. *)
Record Library : Type := mkLibrary {
  lib_images : dict NDArray;
  lib_scalefactors : dict Q
}.

(** What [sc.read_visium] hands over. *)
Record AnnData : Type := mkAnnData {
  X : list (list Q);
  obs_names : list string;
  var_names : list string;
  uns_spatial : dict Library;
  obsm_spatial : list (Q * Q)
}.

(** The expression table: the copy without [uns] and [obsm]. *)
Record Expression : Type := mkExpression {
  expr_X : list (list Q);
  expr_obs_names : list string;
  expr_var_names : list string
}.

(** [np.arange(n)] *)
Definition arange (n : nat) : list Z := map Z.of_nat (seq 0 n).

Record SpatialData (Circles Table : Type) : Type := mkSpatialData {
  images : dict DataArray;
  points : dict Circles;
  table : Table;
  transformations : list (string * string * option Scale)
}.
Arguments mkSpatialData {Circles Table}.
Arguments images {Circles Table}.
Arguments points {Circles Table}.
Arguments table {Circles Table}.
Arguments transformations {Circles Table}.

Section reader.
(** [spatialdata_io.constructors] is not among the sources at hand: its
    two functions, the types they build and anndata's renaming of
    duplicate names are parameters. *)
Context {Circles Table : Type}.
Context (make_unique : list string → list string).
Context (table_update_anndata :
           Expression → string → string → string → string → list Z → result Table).
Context (circles_anndata_from_coordinates :
           list (Q * Q) → Q → string → list Z → result Circles).

Definition read_visium (adata : AnnData) (coordinate_system_name : option string)
  : result (SpatialData Circles Table) :=
  let libraries := keys (uns_spatial adata) in
  let* _ := assert_ (Nat.eqb (length libraries) 1) "" in
  let* lib := match libraries with l :: _ => Ok l | [] => Raise IndexError end in
  let csn := match coordinate_system_name with Some n => n | None => lib end in
  (* expression table *)
  let expression :=
    {| expr_X := X adata;
       expr_obs_names := make_unique (obs_names adata);
       expr_var_names := make_unique (var_names adata) |} in
  let n := length (obs_names adata) in
  let* expression :=
    table_update_anndata expression ("/points/" +:+ csn) "library_id"
      "visium_spot_id" ("/points/" +:+ csn) (arange n) in
  (* circles *)
  let* meta := dict_getitem (uns_spatial adata) lib in
  let* diameter := dict_getitem (lib_scalefactors meta) "spot_diameter_fullres" in
  let radius := (diameter / 2)%Q in
  let* circles :=
    circles_anndata_from_coordinates (obsm_spatial adata) radius
      "visium_spot_id" (arange n) in
  (* image *)
  let* hires := dict_getitem (lib_images meta) "hires" in
  let* img := hires_image hires in
  (* transformation *)
  let* scalef := dict_getitem (lib_scalefactors meta) "tissue_hires_scalef" in
  let* factors := scale_factors scalef in
  let transform := {| scale := factors |} in
  Ok {| images := [(csn, img)];
        points := [(csn, circles)];
        table := expression;
        transformations :=
          [("/images/" +:+ csn, csn, Some transform);
           ("/points/" +:+ csn, csn, None)] |}.
End reader.

End Visium.

(** ** Sample inputs

    Concrete values for the examples below.  The constants take the file
    names of the documented layout; names the layout does not fix are chosen
    for illustration. *)

Module Samples.
Import Merscope.

Definition sample_keys : MerscopeKeys :=
  {| IMAGES_DIR := "images";
     TRANSFORMATION_FILE := "micron_to_mosaic_pixel_transform.csv";
     TRANSCRIPTS_FILE := "detected_transcripts.csv";
     BOUNDARIES_FILE := "cell_boundaries.parquet";
     COUNTS_FILE := "cell_by_gene.csv";
     CELL_METADATA_FILE := "cell_metadata.csv";
     CELLPOSE_BOUNDARIES := "cellpose_micron_space.parquet";
     WATERSHED_BOUNDARIES := "watershed_micron_space.parquet";
     VPT_NAME_COUNTS := "cell_by_gene";
     VPT_NAME_OBS := "cell_metadata";
     VPT_NAME_BOUNDARIES := "cell_boundaries";
     INSTANCE_KEY := "EntityID";
     CELL_X := "center_x";
     CELL_Y := "center_y";
     GLOBAL_X := "global_x";
     GLOBAL_Y := "global_y";
     GLOBAL_Z := "global_z";
     Z_INDEX := "ZIndex" |}.

Definition sample_transcripts : DataFrame :=
  {| index := [Int 0; Int 1; Int 2; Int 3; Int 4];
     columns := [("x", [Float 1; Float 2; Float 3; Float 4; Float 5]);
                 ("y", [Float 5; Float 4; Float 3; Float 2; Float 1]);
                 ("z", [Float 1; Float 0; Float (3 # 2); Float 0; Float 2]);
                 ("gene", [Str "a"; Str "b"; Str "a"; Str "c"; Str "b"])] |}.

(** Two cells, each with a boundary at z-index 0 and at z-index 1. *)
Definition sample_boundaries : GeoDataFrame :=
  {| frame :=
       {| index := [Int 0; Int 1; Int 2; Int 3];
          columns := [("EntityID", [Int 7; Int 7; Int 8; Int 8]);
                      ("ZIndex", [Int 0; Int 1; Int 0; Int 1]);
                      ("Geometry", [Obj "POLYGON a0"; Obj "POLYGON a1";
                                    Obj "POLYGON b0"; Obj "POLYGON b1"])] |};
     geometry_name := "Geometry" |}.

(** A boundary file in which one cell has two rows at z-index 0. *)
Definition repeated_boundaries : GeoDataFrame :=
  {| frame :=
       {| index := [Int 0; Int 1; Int 2];
          columns := [("EntityID", [Int 7; Int 7; Int 7]);
                      ("ZIndex", [Int 0; Int 0; Int 1]);
                      ("Geometry", [Obj "POLYGON a"; Obj "POLYGON b";
                                    Obj "POLYGON c"])] |};
     geometry_name := "Geometry" |}.

Definition sample_counts : DataFrame :=
  {| index := [Str "7"; Str "8"];
     columns := [("ABCD1", [Int 3; Int 0]);
                 ("Blank-3", [Int 0; Int 1]);
                 ("Gfap", [Int 5; Int 2])] |}.

Definition sample_obs : DataFrame :=
  {| index := [Str "7"; Str "8"];
     columns := [("center_x", [Float 10; Float 20]);
                 ("center_y", [Float 30; Float 40])] |}.

Definition sample_float_repr (q : Q) : string :=
  pretty (Qnum q) +:+ "/" +:+ pretty (Zpos (Qden q)).

(** A file system holding one experiment; the parser of point tables is
    the identity on tables that already name their coordinates. *)
Definition sample_world : World unit :=
  {| exists_ := λ _, true;
     iterdir := λ _, Ok ["mosaic_DAPI_z0.tif"; "mosaic_PolyT_z0.tif"];
     genfromtxt := λ _, Ok [[1%Q; 0%Q; 0%Q]; [0%Q; 1%Q; 0%Q]; [0%Q; 0%Q; 1%Q]];
     imread := λ _, Ok tt;
     dd_read_csv := λ _, Ok sample_transcripts;
     read_parquet := λ _, Ok sample_boundaries;
     pd_read_csv := λ p, if String.eqb (name p) "cell_by_gene.csv"
                         then Ok sample_counts else Ok sample_obs;
     PointsModel_parse := λ df _, Ok df;
     float_repr := sample_float_repr |}.

(** A Visium experiment with one library and a 1 x 3 x 1 image. *)
Definition sample_hires : Visium.NDArray :=
  {| Visium.arr_dtype := Visium.float32;
     Visium.arr_data := [[[0%Q]; [(1 # 2)%Q]; [1%Q]]] |}.

(** The same values stored as float64. *)
Definition sample_hires_float64 : Visium.NDArray :=
  {| Visium.arr_dtype := Visium.float64;
     Visium.arr_data := [[[0%Q]; [(1 # 2)%Q]; [1%Q]]] |}.

Definition sample_library (hires : Visium.NDArray) : Visium.Library :=
  {| Visium.lib_images := [("hires", hires); ("lowres", hires)];
     Visium.lib_scalefactors :=
       [("spot_diameter_fullres", 90%Q); ("tissue_hires_scalef", (1 # 2)%Q);
        ("tissue_lowres_scalef", (1 # 10)%Q)] |}.

Definition sample_adata (libraries : dict Visium.Library) : Visium.AnnData :=
  {| Visium.X := [[1%Q; 0%Q]; [0%Q; 2%Q]];
     Visium.obs_names := ["AAAC-1"; "AAAG-1"];
     Visium.var_names := ["Gfap"; "Actb"];
     Visium.uns_spatial := libraries;
     Visium.obsm_spatial := [(100%Q, 200%Q); (300%Q, 400%Q)] |}.

(** Stand-ins for the constructors the Visium reader calls. *)
Definition sample_table_update (e : Visium.Expression)
  (regions regions_key instance_key regions_values : string) (instance_values : list Z)
  : result Visium.Expression := Ok e.

Definition sample_circles (coordinates : list (Q * Q)) (radii : Q)
  (instance_key : string) (instance_values : list Z)
  : result (list (Q * Q * Q)) := Ok (map (λ c, (c, radii)) coordinates).

Definition sample_read_visium :=
  Visium.read_visium (λ names : list string, names) sample_table_update sample_circles.

End Samples.

(** * Shapes of frames *)

(** Closed forms of the frames the MERSCOPE reader builds, used to state
    what its loops keep. *)
Module Shape.
Import Merscope.

(** A frame is rectangular when every column has one cell per index entry. *)
Definition rectangular (df : DataFrame) : Prop :=
  Forall (λ nc : string * list cell, length nc.2 = length (index df)) (columns df).

(** The mask [z == z_level]. *)
Definition at_level (z : list cell) (z_level : cell) : list bool :=
  map (λ c, cell_eqb c z_level) z.

(** [transcripts[z == z_level].drop("z", axis=1)] on a table that has a
    z column. *)
Definition z_layer (transcripts : DataFrame) (z : list cell) (z_level : cell)
  : DataFrame :=
  {| index := select (at_level z z_level) (index transcripts);
     columns :=
       filter (λ nc : string * list cell, nc.1 ≠ "z")
              (map (λ nc : string * list cell, (nc.1, select (at_level z z_level) nc.2))
                   (columns transcripts)) |}.

End Shape.
Export Shape.

(** * Further sample inputs *)

Module Cases.
Import Merscope Samples.

(** Transcripts whose z values are whole numbers. *)
Definition whole_transcripts : DataFrame :=
  {| index := [Int 0; Int 1; Int 2; Int 3; Int 4];
     columns := [("x", [Float 1; Float 2; Float 3; Float 4; Float 5]);
                 ("y", [Float 5; Float 4; Float 3; Float 2; Float 1]);
                 ("z", [Float 1; Float 0; Float 1; Float 0; Float 2]);
                 ("gene", [Str "a"; Str "b"; Str "a"; Str "c"; Str "b"])] |}.

(** The sample experiment with an images directory that holds no image;
    no file of it can be read as an image. *)
Definition bare_world : World unit :=
  {| exists_ := exists_ sample_world;
     iterdir := λ _, Ok ["notes.txt"; "manifest.json"];
     genfromtxt := genfromtxt sample_world;
     imread := λ _, Raise (ValueError "not an image");
     dd_read_csv := dd_read_csv sample_world;
     read_parquet := read_parquet sample_world;
     pd_read_csv := pd_read_csv sample_world;
     PointsModel_parse := PointsModel_parse sample_world;
     float_repr := float_repr sample_world |}.

(** A file system in which only the watershed boundaries exist. *)
Definition watershed_only (p : Path) : bool :=
  String.eqb (name p) "watershed_micron_space.parquet".

End Cases.

(** * Properties *)

Open Scope list_scope.

(** ** Lists, masks and dictionaries *)

Section list_facts.
Context {A : Type}.

Lemma select_map (f : A → bool) (l : list A) :
  select (map f l) l = List.filter f l.
Proof.
  induction l as [|x l IH]; simpl; [done|].
  destruct (f x); by rewrite IH.
Qed.

Lemma select_map_negb (f : A → bool) (l : list A) :
  select (map negb (map f l)) l = List.filter (λ x, negb (f x)) l.
Proof. rewrite map_map. apply select_map. Qed.

Lemma filter_split_Permutation (f : A → bool) (l : list A) :
  l ≡ₚ List.filter (λ x, negb (f x)) l ++ List.filter f l.
Proof.
  induction l as [|x l IH]; simpl; [done|].
  destruct (f x); simpl.
  - by rewrite <- Permutation_middle, <- IH.
  - by rewrite <- IH.
Qed.

Lemma filter_split_length (f : A → bool) (l : list A) :
  length (List.filter (λ x, negb (f x)) l) + length (List.filter f l) = length l.
Proof.
  induction l as [|x l IH]; simpl; [done|].
  destruct (f x); simpl; lia.
Qed.
End list_facts.

(** ** Strings: occurrences *)

Section string_facts.

Lemma append_cons (x : ascii) (a b : string) : String x a +:+ b = String x (a +:+ b).
Proof. reflexivity. Qed.

Lemma append_empty_l (b : string) : "" +:+ b = b.
Proof. reflexivity. Qed.

Lemma append_assoc (a b c : string) : (a +:+ b) +:+ c = a +:+ (b +:+ c).
Proof.
  induction a as [|x a IH]; [done|].
  rewrite !append_cons. by f_equal.
Qed.

Lemma prefix_refl (n : string) : String.prefix n n = true.
Proof.
  induction n as [|x n IH]; simpl; [done|].
  destruct (ascii_dec x x); [exact IH|done].
Qed.

Lemma prefix_append (n c : string) : String.prefix n (n +:+ c) = true.
Proof.
  induction n as [|x n IH]; [by destruct c|].
  rewrite append_cons. simpl.
  destruct (ascii_dec x x); [exact IH|done].
Qed.

Lemma contains_prefix (h n : string) : String.prefix n h = true → contains h n = true.
Proof. intros H. destruct h; cbn [contains]; by rewrite H. Qed.

Lemma contains_append_r (a h n : string) :
  contains h n = true → contains (a +:+ h) n = true.
Proof.
  intros H. induction a as [|x a IH]; [done|].
  rewrite append_cons. cbn [contains]. rewrite IH. apply orb_true_r.
Qed.

(** A string occurs in whatever is written around it. *)
Lemma contains_infix (a n c : string) : contains (a +:+ n +:+ c) n = true.
Proof. apply contains_append_r, contains_prefix, prefix_append. Qed.

Lemma contains_suffix (a n : string) : contains (a +:+ n) n = true.
Proof. apply contains_append_r, contains_prefix, prefix_refl. Qed.

Lemma join_last (sep : string) (l : list string) (x : string) :
  ∃ a, join sep (l ++ [x]) = a +:+ x.
Proof.
  induction l as [|p l [a IH]]; simpl.
  - by exists "".
  - rewrite IH. destruct (l ++ [x]) eqn:E.
    + by destruct l.
    + exists (p +:+ sep +:+ a). by rewrite !append_assoc.
Qed.

(** The text of [dir / name] ends with [name] when [name] is a single plain
    component. *)
Lemma to_str_joinpath_plain (dir : Path) (n : string) :
  of_str n = {| anchor := Relative; parts := [n] |} →
  ∃ a, to_str (dir // n) = a +:+ n.
Proof.
  intros E. unfold joinpath. rewrite E. cbn [anchor parts].
  destruct (join_last "/" (parts dir) n) as [a Ha].
  unfold to_str. cbn [anchor parts].
  destruct (anchor dir).
  - destruct (parts dir ++ [n]) eqn:E'; [by destruct (parts dir)|]. by exists a.
  - exists ("/" +:+ a). by rewrite Ha, append_assoc.
  - exists ("//" +:+ a). by rewrite Ha, append_assoc.
Qed.
End string_facts.

(** ** MERSCOPE: genes and blanks *)

Section gene_blank.
Import Merscope.

Lemma is_gene_spec (data : DataFrame) :
  is_gene data = map (λ nc : string * list cell, negb (is_blank_name nc.1)) (columns data).
Proof.
  unfold is_gene, str_lower_contains, column_names.
  by rewrite !map_map.
Qed.

Lemma gene_columns (data : DataFrame) :
  columns (loc_columns data (is_gene data))
  = List.filter (λ nc, negb (is_blank_name nc.1)) (columns data).
Proof. simpl. rewrite is_gene_spec. apply select_map. Qed.

Lemma blank_columns (data : DataFrame) :
  columns (loc_columns data (map negb (is_gene data)))
  = List.filter (λ nc, is_blank_name nc.1) (columns data).
Proof.
  simpl. rewrite is_gene_spec, select_map_negb.
  induction (columns data) as [|nc l IH]; simpl; [done|].
  rewrite negb_involutive. destruct (is_blank_name nc.1); by rewrite IH.
Qed.

Lemma expression_table_matrices K path data obs_ t :
  expression_table K path data obs_ = Ok t →
  X (table_adata t) = loc_columns data (is_gene data) ∧
  dict_get "blank" (obsm (table_adata t))
    = Some (loc_columns data (map negb (is_gene data))).
Proof.
  unfold expression_table, AnnData_.
  destruct (Nat.eqb _ _); simpl; [|done].
  destruct (getitems _ _) as [sp|e]; simpl; [|done].
  intros [= <-]. simpl. done.
Qed.
End gene_blank.

Section gene_blank_claim.
Import Merscope.

(** C1. The counts columns are split between the main matrix
    ([data.loc[:, is_gene]]) and the blank side-table
    ([data.loc[:, ~is_gene]]): each side keeps, in order, the columns on
    its side of the test "the lower-cased name contains [blank]"; together
    they are a rearrangement of all the columns, and no column is on both
    sides.  A column named [Blank-3] is a blank, one named [ABCD1] is a
    gene.  The table built by the reader carries exactly these two
    frames. *)
Theorem gene_blank_partition (data : DataFrame) :
  let main := columns (loc_columns data (is_gene data)) in
  let blank := columns (loc_columns data (map negb (is_gene data))) in
  main = List.filter (λ nc, negb (is_blank_name nc.1)) (columns data) ∧
  blank = List.filter (λ nc, is_blank_name nc.1) (columns data) ∧
  columns data ≡ₚ main ++ blank ∧
  length main + length blank = length (columns data) ∧
  (∀ nc, nc ∈ columns data →
     (nc ∈ blank ∧ (nc ∉ main) ∧ is_blank_name (fst nc) = true) ∨
     (nc ∈ main ∧ (nc ∉ blank) ∧ is_blank_name (fst nc) = false)) ∧
  (∀ nc, nc ∈ main ∨ nc ∈ blank → nc ∈ columns data) ∧
  (∀ col, ("Blank-3", col) ∈ columns data →
     ("Blank-3", col) ∈ blank ∧ ("Blank-3", col) ∉ main) ∧
  (∀ col, ("ABCD1", col) ∈ columns data →
     ("ABCD1", col) ∈ main ∧ ("ABCD1", col) ∉ blank) ∧
  (∀ K path obs_ t,
     expression_table K path data obs_ = Ok t →
     columns (X (table_adata t)) = main ∧
     (∃ b, dict_get "blank" (obsm (table_adata t)) = Some b ∧ columns b = blank)).
Proof.
  intros main blank.
  assert (Hm : main = List.filter (λ nc, negb (is_blank_name nc.1)) (columns data))
    by apply gene_columns.
  assert (Hb : blank = List.filter (λ nc, is_blank_name nc.1) (columns data))
    by apply blank_columns.
  assert (Hin : ∀ nc, nc ∈ columns data →
     (nc ∈ blank ∧ (nc ∉ main) ∧ is_blank_name (fst nc) = true) ∨
     (nc ∈ main ∧ (nc ∉ blank) ∧ is_blank_name (fst nc) = false)).
  { intros nc Hnc. rewrite Hm, Hb, !list_elem_of_In, !filter_In.
    apply list_elem_of_In in Hnc.
    destruct (is_blank_name nc.1) eqn:E; [left|right]; simpl; intuition congruence. }
  split_and!; try done.
  - rewrite Hm, Hb. apply filter_split_Permutation.
  - rewrite Hm, Hb. apply filter_split_length.
  - intros nc. rewrite Hm, Hb, !list_elem_of_In, !filter_In. tauto.
  - intros col Hc. destruct (Hin _ Hc) as [(?&?&?)|(?&?&E)]; [done|].
    by vm_compute in E.
  - intros col Hc. destruct (Hin _ Hc) as [(?&?&E)|(?&?&?)]; [|done].
    by vm_compute in E.
  - intros K path obs_ t Ht.
    apply expression_table_matrices in Ht as [-> ->]. eauto.
Qed.
End gene_blank_claim.

(** ** Sorting by key, distinct values *)

Section sort_facts.
Context {A : Type}.

Lemma insert_by_Permutation k (x : A) l : insert_by k x l ≡ₚ (k, x) :: l.
Proof.
  induction l as [|[k' y] l IH]; simpl; [done|].
  destruct (k <=? k')%Z; [done|].
  rewrite IH. apply perm_swap.
Qed.

Lemma isort_Permutation (l : list (Z * A)) : isort l ≡ₚ l.
Proof.
  induction l as [|[k x] l IH]; simpl; [done|].
  by rewrite insert_by_Permutation, IH.
Qed.

Lemma insert_by_sorted k (x : A) l :
  StronglySorted key_le l → StronglySorted key_le (insert_by k x l).
Proof.
  induction l as [|[k' y] l IH]; simpl; intros Hs.
  - repeat constructor.
  - apply StronglySorted_cons in Hs as [Hall Hs].
    destruct (k <=? k')%Z eqn:E.
    + apply Z.leb_le in E. apply StronglySorted_cons. split.
      * constructor; [done|].
        eapply Forall_impl; [exact Hall|]. unfold key_le; simpl. lia.
      * by apply StronglySorted_cons.
    + apply Z.leb_gt in E. apply StronglySorted_cons. split; [|by apply IH].
      rewrite insert_by_Permutation. constructor; [|done].
      unfold key_le; simpl. lia.
Qed.

Lemma isort_sorted (l : list (Z * A)) : StronglySorted key_le (isort l).
Proof.
  induction l as [|[k x] l IH]; simpl; [constructor|].
  by apply insert_by_sorted.
Qed.

Lemma combine_map_keys (f : A → Z) (l : list A) :
  Forall (λ p : Z * A, p.1 = f p.2) (combine (map f l) l).
Proof. induction l; simpl; by constructor. Qed.

Lemma combine_map_snd (f : A → Z) (l : list A) :
  map snd (combine (map f l) l) = l.
Proof. induction l; simpl; by f_equal. Qed.

Lemma sorted_values (f : A → Z) (ps : list (Z * A)) :
  Forall (λ p : Z * A, p.1 = f p.2) ps →
  StronglySorted key_le ps →
  StronglySorted (λ a b, (f a ≤ f b)%Z) (map snd ps).
Proof.
  induction ps as [|p ps IH]; simpl; intros Hk Hs; [constructor|].
  apply Forall_cons in Hk as [Hp Hk].
  apply StronglySorted_cons in Hs as [Hall Hs].
  apply StronglySorted_cons. split; [|by apply IH].
  apply Forall_map. rewrite Forall_forall in Hall, Hk |- *.
  intros q Hq. specialize (Hall q Hq). specialize (Hk q Hq).
  unfold key_le in Hall. simpl. lia.
Qed.

Lemma mapM_total (f : A → result Z) (g : A → Z) (l : list A) :
  Forall (λ x, f x = Ok (g x)) l → mapM f l = Ok (map g l).
Proof.
  induction 1 as [|x l Hx _ IH]; simpl; [done|].
  by rewrite Hx, IH.
Qed.

(** On inputs whose keys are all defined, [sorted] returns a
    rearrangement of its input whose keys ascend. *)
Lemma sorted_total (f : A → result Z) (g : A → Z) (l : list A) :
  Forall (λ x, f x = Ok (g x)) l →
  ∃ l', sorted f l = Ok l' ∧ l' ≡ₚ l ∧
        StronglySorted (λ a b, (g a ≤ g b)%Z) l'.
Proof.
  intros Hf. unfold sorted. rewrite (mapM_total f g l Hf). simpl.
  eexists; split; [done|]. split.
  - rewrite isort_Permutation. by rewrite combine_map_snd.
  - apply sorted_values; [|apply isort_sorted].
    rewrite isort_Permutation. apply combine_map_keys.
Qed.
End sort_facts.

Section numeric_cells.

Lemma py_int_numeric c : is_numeric c = true → py_int c = Ok (int_value c).
Proof. by destruct c. Qed.

(** Truncation toward zero depends on the value of the rational only. *)
Lemma truncate_Qeq (x y : Q) :
  (x == y)%Q →
  Z.quot (Qnum x) (Zpos (Qden x)) = Z.quot (Qnum y) (Zpos (Qden y)).
Proof.
  destruct x as [xn xd], y as [yn yd]. intros E. simpl.
  assert (E0 : (xn * Zpos yd = yn * Zpos xd)%Z) by exact E.
  destruct (Z_le_gt_dec 0 xn) as [Hx|Hx].
  - assert (Hy : (0 ≤ yn)%Z) by nia.
    rewrite !Z.quot_div_nonneg by lia.
    change (Qfloor (xn # xd) = Qfloor (yn # yd)). by rewrite E.
  - assert (Hy : (yn < 0)%Z) by nia.
    assert (E' : (- (xn # xd) == - (yn # yd))%Q) by (by rewrite E).
    replace xn with (- - xn)%Z by lia.
    replace yn with (- - yn)%Z by lia.
    rewrite !(Z.quot_opp_l (- _)) by lia. f_equal.
    rewrite !Z.quot_div_nonneg by lia.
    change (Qfloor (- (xn # xd)) = Qfloor (- (yn # yd))). by rewrite E'.
Qed.

Lemma truncate_inject_Z (z : Z) :
  Z.quot (Qnum (inject_Z z)) (Zpos (Qden (inject_Z z))) = z.
Proof. simpl. apply Z.quot_1_r. Qed.

Lemma cell_eqb_int_value a b :
  is_numeric a = true → cell_eqb a b = true → int_value a = int_value b.
Proof.
  destruct a as [x|x|x|x], b as [y|y|y|y]; simpl; try done; intros _ E.
  - by apply Z.eqb_eq in E.
  - apply Qeq_bool_iff in E. rewrite <- (truncate_inject_Z x).
    by apply truncate_Qeq.
  - apply Qeq_bool_iff in E. rewrite <- (truncate_inject_Z y).
    by apply truncate_Qeq.
  - apply Qeq_bool_iff in E. by apply truncate_Qeq.
Qed.

Lemma cell_eqb_refl c : is_numeric c = true → cell_eqb c c = true.
Proof.
  destruct c; simpl; try done; intros _.
  - apply Z.eqb_refl.
  - by apply Qeq_bool_iff.
Qed.

Lemma unique_elem_of (z : list cell) c : c ∈ unique z → c ∈ z.
Proof.
  induction z as [|x z IH]; simpl; [done|].
  rewrite !list_elem_of_In. simpl. rewrite filter_In, <- !list_elem_of_In.
  intros [->|[H _]]; [by left|right; auto].
Qed.

Lemma unique_covers (z : list cell) c :
  Forall (λ c, is_numeric c = true) z → c ∈ z →
  ∃ l, l ∈ unique z ∧ int_value l = int_value c.
Proof.
  induction 1 as [|x z Hx Hz IH]; [by intros ?%elem_of_nil|].
  intros [->|Hc]%elem_of_cons.
  - exists x. split; [simpl; left|done].
  - destruct (IH Hc) as (l & Hl & El).
    destruct (cell_eqb x l) eqn:E.
    + exists x. split; [simpl; left|].
      rewrite <- El. by apply cell_eqb_int_value.
    + exists l. split; [|done]. simpl. right.
      apply list_elem_of_In, filter_In. rewrite E.
      by apply list_elem_of_In in Hl.
Qed.

Lemma value_counts_index_Permutation (z : list cell) :
  value_counts_index z ≡ₚ unique z.
Proof.
  unfold value_counts_index. rewrite isort_Permutation, map_map. simpl.
  by rewrite map_id.
Qed.
End numeric_cells.

(** ** Dictionaries *)

Section dict_facts.
Context {V : Type}.

Lemma keys_dict_set_in k (v : V) d : k ∈ keys d → keys (dict_set k v d) = keys d.
Proof.
  induction d as [|[k' v'] d IH]; simpl; [by intros ?%elem_of_nil|].
  destruct (String.eqb k' k) eqn:E; [done|].
  apply String.eqb_neq in E.
  intros [?|Hk]%elem_of_cons; [congruence|]. simpl. f_equal. by apply IH.
Qed.

Lemma keys_dict_set_notin k (v : V) d :
  k ∉ keys d → keys (dict_set k v d) = keys d ++ [k].
Proof.
  induction d as [|[k' v'] d IH]; simpl; [done|].
  intros Hk. apply not_elem_of_cons in Hk as [Hne Hk].
  destruct (String.eqb k' k) eqn:E.
  - apply String.eqb_eq in E. congruence.
  - simpl. f_equal. by apply IH.
Qed.

Lemma Forall_dict_set (P : string * V → Prop) k v d :
  P (k, v) → Forall P d → Forall P (dict_set k v d).
Proof.
  intros Hkv. induction 1 as [|[k' v'] d Hx Hd IH]; simpl.
  - by repeat constructor.
  - destruct (String.eqb k' k) eqn:E.
    + apply String.eqb_eq in E as ->. by constructor.
    + by constructor.
Qed.

Lemma dict_get_dict_set k (v : V) d : dict_get k (dict_set k v d) = Some v.
Proof.
  induction d as [|[k' v'] d IH]; simpl.
  - by rewrite String.eqb_refl.
  - destruct (String.eqb k' k) eqn:E; simpl; by rewrite E.
Qed.
End dict_facts.

(** ** MERSCOPE: point layers by z-level *)

Section split_loop.
Import Merscope.

Lemma transcripts_layer_name_inj i j :
  transcripts_layer_name i = transcripts_layer_name j → i = j.
Proof.
  unfold transcripts_layer_name. intros E.
  apply (inj (String.append "transcripts_z")) in E.
  by apply (inj pretty) in E.
Qed.

Lemma lookup_column_name name cols c :
  lookup_column name cols = Some c → name ∈ map fst cols.
Proof.
  induction cols as [|[n c'] cols IH]; simpl; [done|].
  destruct (String.eqb n name) eqn:E.
  - apply String.eqb_eq in E as ->. intros _. left.
  - intros H. right. by apply IH.
Qed.

Lemma drop_ok (df : DataFrame) name :
  name ∈ column_names df →
  ∃ df', drop df name = Ok df' ∧ (name ∉ column_names df') ∧
         index df' = index df ∧
         columns df' = filter (λ nc, nc.1 ≠ name) (columns df).
Proof.
  intros Hin. unfold drop.
  assert (existsb (String.eqb name) (column_names df) = true) as ->.
  { apply existsb_exists. exists name. split; [by apply list_elem_of_In|].
    apply String.eqb_refl. }
  eexists; split; [done|]. split; [|done].
  unfold column_names. simpl. intros (nc & E & Hnc)%list_elem_of_fmap.
  apply list_elem_of_filter in Hnc as [Hne _]. by apply Hne.
Qed.

Context (transcripts : DataFrame) (z : list cell).
Hypothesis Hz : lookup_column "z" (columns transcripts) = Some z.

Lemma z_level_subset_ok z_level :
  ∃ layer, z_level_subset transcripts z z_level = Ok layer ∧
           ("z" ∉ column_names layer).
Proof.
  unfold z_level_subset.
  destruct (drop_ok (mask_rows transcripts (map (λ c, cell_eqb c z_level) z)) "z")
    as (df' & E & Hn & _).
  { unfold column_names, mask_rows. simpl. rewrite map_map. simpl.
    by eapply lookup_column_name. }
  eauto.
Qed.

Lemma add_z_levels (z_levels : list cell) :
  ∀ (points : dict DataFrame) (ints : list Z),
  Forall (λ c, is_numeric c = true ∧ c ∈ z) z_levels →
  StronglySorted (λ a b, (int_value a ≤ int_value b)%Z) z_levels →
  keys points = map transcripts_layer_name ints →
  StronglySorted Z.lt ints →
  (∀ i l, i ∈ ints → l ∈ z_levels → (i ≤ int_value l)%Z) →
  Forall (is_z_layer transcripts z) points →
  ∃ points' ints',
    foldM (add_z_level transcripts z) z_levels points = Ok points' ∧
    keys points' = map transcripts_layer_name ints' ∧
    StronglySorted Z.lt ints' ∧
    (∀ i, i ∈ ints' ↔ i ∈ ints ∨ ∃ l, l ∈ z_levels ∧ int_value l = i) ∧
    Forall (is_z_layer transcripts z) points'.
Proof.
  induction z_levels as [|l ls IH]; intros points ints Hnum Hsort Hkeys Hints Hle Hlay.
  - exists points, ints. simpl. split_and!; try done.
    intros i. split; [auto|]. intros [?|(l & []%elem_of_nil & _)]; done.
  - apply Forall_cons in Hnum as [[Hl Hlz] Hnum].
    apply StronglySorted_cons in Hsort as [Hall Hsort].
    simpl. unfold add_z_level at 1.
    destruct (z_level_subset_ok l) as (layer & Hsub & Hnoz).
    rewrite Hsub. simpl.
    rewrite (py_int_numeric l Hl). simpl.
    set (i := int_value l).
    assert (Hnew : is_z_layer transcripts z (transcripts_layer_name i, layer)).
    { split; [done|]. by exists l. }
    destruct (decide (i ∈ ints)) as [Hi|Hi].
    + destruct (IH (dict_set (transcripts_layer_name i) layer points) ints)
        as (points' & ints' & Hf & Hk & Hs & Hmem & Hl').
      * done.
      * done.
      * rewrite keys_dict_set_in; [done|]. rewrite Hkeys.
        by apply list_elem_of_fmap_2.
      * done.
      * intros j l' Hj Hl'. apply Hle; [done|by right].
      * by apply Forall_dict_set.
      * exists points', ints'. split_and!; try done.
        intros j. rewrite Hmem. split.
        -- intros [?|(l' & ? & ?)]; [by left|]. right. exists l'. split; [by right|done].
        -- intros [?|(l' & [->|?]%elem_of_cons & <-)]; [by left|by left|].
           right. by exists l'.
    + destruct (IH (dict_set (transcripts_layer_name i) layer points) (ints ++ [i]))
        as (points' & ints' & Hf & Hk & Hs & Hmem & Hl').
      * done.
      * done.
      * rewrite keys_dict_set_notin.
        -- by rewrite Hkeys, map_app.
        -- rewrite Hkeys. intros (j & E & Hj)%list_elem_of_fmap.
           apply transcripts_layer_name_inj in E as ->. done.
      * apply StronglySorted_app. split_and!.
        -- intros j1 j2 Hj1 ->%list_elem_of_singleton.
           assert (j1 ≤ i)%Z by (apply Hle; [done|left]).
           assert (j1 ≠ i) by (intros ->; done). lia.
        -- done.
        -- repeat constructor.
      * intros j l' [Hj| ->%list_elem_of_singleton]%elem_of_app Hl'.
        -- apply Hle; [done|by right].
        -- rewrite Forall_forall in Hall. by apply Hall.
      * by apply Forall_dict_set.
      * exists points', ints'. split_and!; try done.
        intros j. rewrite Hmem, elem_of_app, list_elem_of_singleton. split.
        -- intros [[?| ->]|(l' & ? & ?)]; [by left| |].
           ++ right. exists l. split; [left|done].
           ++ right. exists l'. split; [by right|done].
        -- intros [?|(l' & [->|?]%elem_of_cons & <-)]; [by left; left|by left; right|].
           right. by exists l'.
Qed.
End split_loop.

Section split_claim.
Import Merscope.

(** C2. For a transcript table whose z column is numeric, the split
    succeeds.  The z-levels are visited in ascending order of their integer
    value; the layers are named [transcripts_z<i>], in that order, for
    exactly the distinct integers [i] that [int] takes on the z column, one
    layer per integer; every layer is the subset of the table at a z-level
    whose integer is in its name, and has no column named [z]. *)
Theorem split_transcripts_layers (transcripts : DataFrame) (z : list cell) :
  lookup_column "z" (columns transcripts) = Some z →
  Forall (λ c, is_numeric c = true) z →
  ∃ (visited : list cell) (points : dict DataFrame) (ints : list Z),
    sorted py_int (value_counts_index z) = Ok visited ∧
    StronglySorted (λ a b, (int_value a ≤ int_value b)%Z) visited ∧
    split_transcripts transcripts = Ok points ∧
    keys points = map transcripts_layer_name ints ∧
    StronglySorted Z.lt ints ∧
    (∀ i, i ∈ ints ↔ ∃ c, c ∈ z ∧ py_int c = Ok i) ∧
    NoDup (keys points) ∧
    length points = length ints ∧
    Forall (is_z_layer transcripts z) points.
Proof.
  intros Hz Hnum.
  assert (Hvc : Forall (λ c, is_numeric c = true ∧ c ∈ z) (value_counts_index z)).
  { apply Forall_forall. intros c Hc.
    rewrite value_counts_index_Permutation in Hc.
    apply unique_elem_of in Hc. split; [|done].
    rewrite Forall_forall in Hnum. by apply Hnum. }
  destruct (sorted_total py_int int_value (value_counts_index z))
    as (visited & Hsorted & Hperm & Hasc).
  { eapply Forall_impl; [exact Hvc|]. intros c [Hc _]. by apply py_int_numeric. }
  destruct (add_z_levels transcripts z Hz visited [] [])
    as (points & ints & Hfold & Hkeys & Hints & Hmem & Hlayers).
  { by rewrite Hperm. }
  { done. }
  { done. }
  { constructor. }
  { by intros i l ?%elem_of_nil. }
  { constructor. }
  exists visited, points, ints.
  assert (Hsplit : split_transcripts transcripts = Ok points).
  { unfold split_transcripts, getitem. rewrite Hz. simpl.
    rewrite Hsorted. simpl. exact Hfold. }
  assert (Hnodup : NoDup ints).
  { clear -Hints. induction Hints as [|i l _ IH Hall]; constructor; [|done].
    rewrite Forall_forall in Hall. intros Hi. specialize (Hall i Hi). lia. }
  split_and!; try done.
  - intros i. rewrite Hmem. split.
    + intros [[]%elem_of_nil|(l & Hl & <-)].
      rewrite Hperm, value_counts_index_Permutation in Hl.
      exists l. split; [by apply unique_elem_of|].
      apply py_int_numeric. rewrite Forall_forall in Hnum.
      by apply Hnum, unique_elem_of.
    + intros (c & Hc & Hi). right.
      assert (Hcn : is_numeric c = true)
        by (rewrite Forall_forall in Hnum; by apply Hnum).
      rewrite (py_int_numeric c Hcn) in Hi. injection Hi as <-.
      destruct (unique_covers z c Hnum Hc) as (l & Hl & El).
      exists l. split; [|done].
      by rewrite Hperm, value_counts_index_Permutation.
  - rewrite Hkeys. apply NoDup_fmap_2; [|done].
    intros i j. apply transcripts_layer_name_inj.
  - rewrite <- (length_map fst points). fold (keys points).
    by rewrite Hkeys, length_map.
Qed.

(** A table with z values 1.0, 0.0, 1.5, 0.0, 2.0: three layers. *)
Lemma split_transcripts_layers_witness :
  let t := {| index := [Int 0; Int 1; Int 2; Int 3; Int 4];
              columns := [("x", [Float 1; Float 2; Float 3; Float 4; Float 5]);
                          ("z", [Float 1; Float 0; Float (3 # 2); Float 0; Float 2]);
                          ("gene", [Str "a"; Str "b"; Str "a"; Str "c"; Str "b"])] |} in
  ∃ (visited : list cell) (points : dict DataFrame) (ints : list Z),
    sorted py_int
      (value_counts_index [Float 1; Float 0; Float (3 # 2); Float 0; Float 2])
      = Ok visited ∧
    StronglySorted (λ a b, (int_value a ≤ int_value b)%Z) visited ∧
    split_transcripts t = Ok points ∧
    keys points = map transcripts_layer_name ints ∧
    StronglySorted Z.lt ints ∧
    (∀ i, i ∈ ints ↔
          ∃ c, c ∈ [Float 1; Float 0; Float (3 # 2); Float 0; Float 2] ∧
               py_int c = Ok i) ∧
    NoDup (keys points) ∧
    length points = length ints ∧
    Forall (is_z_layer t [Float 1; Float 0; Float (3 # 2); Float 0; Float 2]) points.
Proof.
  intros t.
  apply (split_transcripts_layers t
           [Float 1; Float 0; Float (3 # 2); Float 0; Float 2]).
  - reflexivity.
  - repeat constructor.
Defined.

Example split_transcripts_example :
  keys <$> (match split_transcripts
    {| index := [Int 0; Int 1; Int 2; Int 3; Int 4];
       columns := [("x", [Float 1; Float 2; Float 3; Float 4; Float 5]);
                   ("z", [Float 1; Float 0; Float (3 # 2); Float 0; Float 2]);
                   ("gene", [Str "a"; Str "b"; Str "a"; Str "c"; Str "b"])] |}
            with Ok p => Some p | Raise _ => None end)
  = Some ["transcripts_z0"; "transcripts_z1"; "transcripts_z2"].
Proof. vm_compute. reflexivity. Qed.
End split_claim.

(** ** Data frames: columns under row masks and assignments *)

Section frame_facts.

Lemma lookup_column_mask name mask cols :
  lookup_column name (map (λ nc : string * list cell, (nc.1, select mask nc.2)) cols)
  = select mask <$> lookup_column name cols.
Proof.
  induction cols as [|[n c] cols IH]; simpl; [done|].
  by destruct (String.eqb n name).
Qed.

Lemma Forall_select_map (f : cell → bool) (l : list cell) :
  Forall (λ c, f c = true) (select (map f l) l).
Proof.
  induction l as [|x l IH]; simpl; [constructor|].
  destruct (f x) eqn:E; [by constructor|done].
Qed.

Lemma length_select_map {A} (f : cell → bool) (l : list cell) (l' : list A) :
  length l = length l' →
  length (select (map f l) l') = length (List.filter f l).
Proof.
  revert l'. induction l as [|x l IH]; intros [|y l']; simpl; try done.
  intros [= E]. destruct (f x); simpl; by rewrite IH.
Qed.

Lemma lookup_set_column_eq name col cols :
  lookup_column name (Merscope.set_column_in name col cols) = Some col.
Proof.
  induction cols as [|[n c] cols IH]; simpl.
  - by rewrite String.eqb_refl.
  - destruct (String.eqb n name) eqn:E; simpl; by rewrite E.
Qed.

Lemma lookup_set_column_ne name name' col cols :
  name' ≠ name →
  lookup_column name (Merscope.set_column_in name' col cols) = lookup_column name cols.
Proof.
  intros Hne. induction cols as [|[n c] cols IH]; simpl.
  - by apply String.eqb_neq in Hne as ->.
  - destruct (String.eqb n name') eqn:E; simpl.
    + apply String.eqb_eq in E as ->. by apply String.eqb_neq in Hne as ->.
    + by rewrite IH.
Qed.
End frame_facts.

(** ** MERSCOPE: boundaries at z-index 0 *)

Section boundaries_claim.
Import Merscope Samples.

(** C3, as the code has it.  Once the geometry column is renamed and the
    z-index and instance columns are found, the shape layer is the boundary
    table restricted to the rows whose z-index equals 0, every such row
    kept once and in order, and indexed by the string form of its instance
    identifier.  An identifier has as many rows in the layer as in the
    z-index-0 slice: exactly one when it occurs once there. *)
Theorem z0_boundaries_rows (K : MerscopeKeys) (float_repr : Q → string)
    (geo g : GeoDataFrame) (z_index instance : list cell) :
  rename_geometry geo "geometry" = Ok g →
  lookup_column (Z_INDEX K) (columns (frame g)) = Some z_index →
  lookup_column (INSTANCE_KEY K) (columns (frame g)) = Some instance →
  let at_z0 := map (λ c, cell_eqb c (Int 0)) z_index in
  ∃ r, z0_boundaries K float_repr geo = Ok r ∧
    columns (frame r)
      = map (λ nc, (nc.1, select at_z0 nc.2)) (columns (frame g)) ∧
    lookup_column (Z_INDEX K) (columns (frame r)) = Some (select at_z0 z_index) ∧
    Forall (λ c, cell_eqb c (Int 0) = true) (select at_z0 z_index) ∧
    lookup_column (INSTANCE_KEY K) (columns (frame r))
      = Some (select at_z0 instance) ∧
    index (frame r) = map (astype_str float_repr) (select at_z0 instance) ∧
    (length z_index = length instance →
     length (index (frame r))
       = length (List.filter (λ c, cell_eqb c (Int 0)) z_index)) ∧
    (∀ id, count id (select at_z0 instance) = 1 →
           ∃ ids, lookup_column (INSTANCE_KEY K) (columns (frame r)) = Some ids ∧
                  count id ids = 1).
Proof.
  intros Hg Hz Hi at_z0.
  unfold z0_boundaries. rewrite Hg. simpl.
  unfold getitem at 1. rewrite Hz. simpl.
  unfold getitem. simpl. rewrite lookup_column_mask, Hi. simpl.
  eexists. split; [done|]. simpl.
  rewrite !lookup_column_mask, Hz, Hi. simpl.
  split_and!; try done.
  - apply Forall_select_map.
  - intros Hlen. rewrite length_map. by apply length_select_map.
  - intros id Hid. eauto.
Qed.

Lemma z0_boundaries_rows_witness :
  ∃ r, z0_boundaries sample_keys sample_float_repr sample_boundaries = Ok r ∧
       index (frame r) = [Str "7"; Str "8"].
Proof.
  destruct (z0_boundaries_rows sample_keys sample_float_repr sample_boundaries
              {| frame :=
                   {| index := [Int 0; Int 1; Int 2; Int 3];
                      columns := [("EntityID", [Int 7; Int 7; Int 8; Int 8]);
                                  ("ZIndex", [Int 0; Int 1; Int 0; Int 1]);
                                  ("geometry", [Obj "POLYGON a0"; Obj "POLYGON a1";
                                                Obj "POLYGON b0"; Obj "POLYGON b1"])] |};
                 geometry_name := "geometry" |}
              [Int 0; Int 1; Int 0; Int 1] [Int 7; Int 7; Int 8; Int 8]
              eq_refl eq_refl eq_refl) as (r & Hr & _ & _ & _ & _ & Hidx & _).
  exists r. split; [exact Hr|exact Hidx].
Defined.

(** C3, as stated, fails on a boundary file in which an instance has two
    rows at z-index 0: the layer has two rows for the one identifier. *)
Lemma z0_boundaries_repeated_instance :
  ∃ r, z0_boundaries sample_keys sample_float_repr repeated_boundaries = Ok r ∧
       lookup_column "EntityID" (columns (frame r)) = Some [Int 7; Int 7] ∧
       index (frame r) = [Str "7"; Str "7"] ∧
       unique [Int 7; Int 7] = [Int 7] ∧
       count (Int 7) [Int 7; Int 7] = 2.
Proof. eexists. vm_compute. repeat split. Qed.
End boundaries_claim.

(** ** MERSCOPE: the reader and its steps *)

Section reader_facts.
Import Merscope.
Context {Array : Type} (K : MerscopeKeys) (W : World Array).

Lemma bind_Ok {A B} (m : result A) (k : A → result B) b :
  bind m k = Ok b → ∃ a, m = Ok a ∧ k a = Ok b.
Proof. destruct m; simpl; [eauto|done]. Qed.

(** A successful run went through each step: the point layers come from
    [split_transcripts], the polygons from [z0_boundaries], the table from
    [expression_table] at the root path. *)
Lemma merscope_Ok_inv path vpt_outputs read_tif sd :
  merscope K W path vpt_outputs read_tif = Ok sd →
  ∃ transcripts geo_df polygons data obs_ matrix,
    split_transcripts transcripts = Ok (points sd) ∧
    z0_boundaries K (float_repr W) geo_df = Ok polygons ∧
    shapes sd = [("polygons",
                  {| shapes_geo := polygons;
                     shapes_transformations :=
                       [("pixels", Affine matrix ["x"; "y"] ["x"; "y"])] |})] ∧
    expression_table K (Path_ path) data obs_ = Ok (table sd).
Proof.
  unfold merscope. intros H.
  apply bind_Ok in H as ([[cp op] bp] & _ & H).
  apply bind_Ok in H as (matrix & _ & H).
  apply bind_Ok in H as (imgs & _ & H).
  apply bind_Ok in H as (tdf & _ & H).
  apply bind_Ok in H as (tr & _ & H).
  apply bind_Ok in H as (gene & _ & H).
  apply bind_Ok in H as (pts & Hpts & H).
  apply bind_Ok in H as (geo & _ & H).
  apply bind_Ok in H as (poly & Hpoly & H).
  apply bind_Ok in H as (data & _ & H).
  apply bind_Ok in H as (obs_ & _ & H).
  apply bind_Ok in H as (tbl & Htbl & H).
  injection H as <-. simpl.
  by exists (set_column tr "gene" gene), geo, poly, data, obs_, matrix.
Qed.

Lemma mapM_getitem_two (df : DataFrame) a b ca cb :
  lookup_column a (columns df) = Some ca →
  lookup_column b (columns df) = Some cb →
  getitems df [a; b] = Ok {| index := index df; columns := [(a, ca); (b, cb)] |}.
Proof. intros Ha Hb. unfold getitems, getitem. simpl. by rewrite Ha, Hb. Qed.

(** What [expression_table] puts into the region column. *)
Lemma expression_table_region path data obs_ t :
  INSTANCE_KEY K ≠ "region" →
  expression_table K path data obs_ = Ok t →
  index (obs (table_adata t)) = index obs_ ∧
  lookup_column "region" (columns (obs (table_adata t)))
    = Some (repeat (Str (stem path)) (length (index obs_))) ∧
  region_key t = "region" ∧
  region t = match index obs_ with [] => [] | _ :: _ => [Str (stem path)] end.
Proof.
  intros Hne. unfold expression_table, AnnData_.
  destruct (Nat.eqb _ _); simpl; [|done].
  destruct (getitems _ _) as [sp|e]; simpl; [|done].
  intros [= <-]. simpl. split_and!; try done.
  rewrite lookup_set_column_ne by done.
  apply lookup_set_column_eq.
Qed.

Lemma expression_table_total path data obs_ cx cy :
  length (index data) = length (index obs_) →
  lookup_column (CELL_X K) (columns obs_) = Some cx →
  lookup_column (CELL_Y K) (columns obs_) = Some cy →
  ∃ t, expression_table K path data obs_ = Ok t.
Proof.
  intros Hlen Hx Hy. unfold expression_table, AnnData_. simpl.
  apply Nat.eqb_eq in Hlen as ->. simpl.
  rewrite (mapM_getitem_two obs_ _ _ cx cy Hx Hy). simpl. eauto.
Qed.
End reader_facts.

Section region_claim.
Import Merscope Samples.

(** C5, as the code has it.  The table is built whenever the counts and the
    metadata have the same number of rows and the metadata has the two
    centre columns; every cell row then has the same region value, the stem
    of the root path: its final segment without its last suffix, which is
    the final segment itself when that segment has no dot.  The table
    declares that value as its only region when it has a row.  The table of
    a run of the reader is this one. *)
Theorem merscope_region (K : MerscopeKeys) (path : pathlike) :
  INSTANCE_KEY K ≠ "region" →
  let root := Path_ path in
  let labelled (t : Table) (rows : list cell) :=
    lookup_column "region" (columns (obs (table_adata t)))
      = Some (repeat (Str (stem root)) (length rows)) ∧
    region_key t = "region" ∧
    region t = match rows with [] => [] | _ :: _ => [Str (stem root)] end in
  (∀ data obs_ cx cy,
     length (index data) = length (index obs_) →
     lookup_column (CELL_X K) (columns obs_) = Some cx →
     lookup_column (CELL_Y K) (columns obs_) = Some cy →
     ∃ t, expression_table K root data obs_ = Ok t ∧ labelled t (index obs_)) ∧
  (∀ (Array : Type) (W : World Array) vpt_outputs read_tif sd,
     merscope K W path vpt_outputs read_tif = Ok sd →
     labelled (table sd) (index (obs (table_adata (table sd))))) ∧
  (rfind_dot (name root) = None → stem root = name root).
Proof.
  intros Hne root labelled. split_and!.
  - intros data obs_ cx cy Hlen Hx Hy.
    destruct (expression_table_total K root data obs_ cx cy Hlen Hx Hy) as [t Ht].
    exists t. split; [done|].
    by destruct (expression_table_region K _ _ _ _ Hne Ht) as (_ & ? & ? & ?).
  - intros Array W vpt_outputs read_tif sd Hrun.
    apply merscope_Ok_inv in Hrun as (? & ? & ? & data & obs_ & ? & _ & _ & _ & Ht).
    destruct (expression_table_region K _ _ _ _ Hne Ht) as (Hidx & Hcol & Hkey & Hreg).
    unfold labelled. by rewrite Hidx.
  - unfold stem. by intros ->.
Qed.

Lemma merscope_region_witness :
  ∃ sd, merscope sample_keys sample_world (PStr "data/region_0") VptNone true = Ok sd ∧
        lookup_column "region" (columns (obs (table_adata (table sd))))
          = Some [Str "region_0"; Str "region_0"] ∧
        region (table sd) = [Str "region_0"].
Proof.
  assert (Hne : INSTANCE_KEY sample_keys ≠ "region") by discriminate.
  destruct (merscope sample_keys sample_world (PStr "data/region_0") VptNone true)
    as [sd|e] eqn:E; [|vm_compute in E; discriminate].
  exists sd.
  destruct (merscope_region sample_keys (PStr "data/region_0") Hne) as (_ & Hrun & _).
  destruct (Hrun unit sample_world VptNone true sd E) as (Hcol & _ & Hreg).
  assert (Hidx : index (obs (table_adata (table sd))) = [Str "7"; Str "8"]).
  { vm_compute in E. by injection E as <-. }
  rewrite Hidx in Hcol, Hreg. split_and!; [done|exact Hcol|exact Hreg].
Defined.

(** C5, as stated, fails for a root directory whose name has a suffix:
    under [data/region.1] the rows are labelled [region], not [region.1]. *)
Lemma merscope_region_drops_suffix :
  ∃ sd, merscope sample_keys sample_world (PStr "data/region.1") VptNone true = Ok sd ∧
        name (Path_ (PStr "data/region.1")) = "region.1" ∧
        lookup_column "region" (columns (obs (table_adata (table sd))))
          = Some [Str "region"; Str "region"] ∧
        region (table sd) = [Str "region"] ∧
        Str "region" ≠ Str "region.1".
Proof. eexists. vm_compute. repeat split. discriminate. Qed.
End region_claim.

(** ** MERSCOPE: the filename scanner *)

Section scanner.
Import Merscope.

(** The scanner on the directory of the scanner test: the stains are DAPI
    and PolyT, the z-levels 0 and 1, and [notes.txt] leaves no trace. *)
Example scan_images_test :
  let r := _scan_images ["mosaic_DAPI_z0.tif"; "mosaic_DAPI_z1.tif";
                         "mosaic_PolyT_z0.tif"; "notes.txt"] in
  r.1 ≡ₚ ["DAPI"; "PolyT"] ∧ r.2 ≡ₚ ["0"; "1"] ∧
  search exp "notes.txt" = None.
Proof.
  assert (E : _scan_images ["mosaic_DAPI_z0.tif"; "mosaic_DAPI_z1.tif";
                            "mosaic_PolyT_z0.tif"; "notes.txt"]
              = (["DAPI"; "PolyT"], ["1"; "0"])) by (vm_compute; reflexivity).
  rewrite E. simpl. split_and!; [done|apply perm_swap|by vm_compute].
Qed.

(** The scanner keeps the groups of the names its expression is found in,
    and nothing of the others. *)
Lemma scan_images_groups (file_names : list string) (stain z_level : string) :
  (stain ∈ (_scan_images file_names).1 ↔
     ∃ n m, n ∈ file_names ∧ search exp n = Some m ∧ group "stain" m = Some stain) ∧
  (z_level ∈ (_scan_images file_names).2 ↔
     ∃ n m, n ∈ file_names ∧ search exp n = Some m ∧ group "z" m = Some z_level).
Proof.
  unfold _scan_images. simpl.
  split; rewrite elem_of_elements, elem_of_list_to_set, list_elem_of_omap.
  - split.
    + intros (o & (n & -> & Hn)%list_elem_of_fmap & Ho).
      destruct (search exp n) as [m|] eqn:E; [|done]. by exists n, m.
    + intros (n & m & Hn & E & Hg). exists (Some m). split; [|done].
      rewrite <- E. by apply list_elem_of_fmap_2.
  - split.
    + intros (o & (n & -> & Hn)%list_elem_of_fmap & Ho).
      destruct (search exp n) as [m|] eqn:E; [|done]. by exists n, m.
    + intros (n & m & Hn & E & Hg). exists (Some m). split; [|done].
      rewrite <- E. by apply list_elem_of_fmap_2.
Qed.

(** C6, where the code departs from it.  The expression is searched for
    anywhere in the name and its dot stands for any character, so names that
    do not read [mosaic_<stain>_z<digits>.tif] are taken too: a backup copy
    [mosaic_DAPI_z1.tif.bak] contributes the z-level 1, and
    [mosaic_DAPI_z0xtif], [old_mosaic_DAPI_z2.tiff] and [mosaic_a_z12tif.tif]
    are accepted as well. *)
Theorem scan_images_takes_other_names :
  let r := _scan_images ["mosaic_DAPI_z0.tif"; "mosaic_DAPI_z1.tif.bak"] in
  spec_pattern "mosaic_DAPI_z0.tif" = true ∧
  spec_pattern "mosaic_DAPI_z1.tif.bak" = false ∧
  r.1 ≡ₚ ["DAPI"] ∧ r.2 ≡ₚ ["0"; "1"] ∧
  (spec_pattern "mosaic_DAPI_z0xtif" = false ∧
   _scan_images ["mosaic_DAPI_z0xtif"] = (["DAPI"], ["0"])) ∧
  (spec_pattern "old_mosaic_DAPI_z2.tiff" = false ∧
   _scan_images ["old_mosaic_DAPI_z2.tiff"] = (["DAPI"], ["2"])) ∧
  (spec_pattern "mosaic_a_z12tif.tif" = false ∧
   _scan_images ["mosaic_a_z12tif.tif"] = (["a"], ["1"])).
Proof.
  assert (E : _scan_images ["mosaic_DAPI_z0.tif"; "mosaic_DAPI_z1.tif.bak"]
              = (["DAPI"], ["1"; "0"])) by (vm_compute; reflexivity).
  rewrite E. simpl.
  split; [by vm_compute|]. split; [by vm_compute|].
  split; [reflexivity|]. split; [apply perm_swap|].
  repeat split; vm_compute; reflexivity.
Qed.
End scanner.

(** ** The scanner on names of the documented form *)

Section scanner_names.
Import Merscope.

Lemma length_append (a b : string) :
  String.length (a +:+ b) = String.length a + String.length b.
Proof. induction a as [|x a IH]; [done|]. rewrite append_cons. simpl. by rewrite IH. Qed.

Lemma skip_append (a b : string) : skip (String.length a) (a +:+ b) = b.
Proof. induction a as [|x a IH]; [by destruct b|]. by rewrite append_cons. Qed.

Lemma substring_append (a b : string) :
  String.substring 0 (String.length (a +:+ b) - String.length b) (a +:+ b) = a.
Proof.
  rewrite length_append.
  replace (String.length a + String.length b - String.length b)
    with (String.length a) by lia.
  induction a as [|x a IH]; [by destruct b|].
  rewrite append_cons. simpl. by rewrite IH.
Qed.

Lemma all_chars_append (cls : ascii → bool) (a b : string) :
  all_chars cls (a +:+ b) = all_chars cls a && all_chars cls b.
Proof.
  induction a as [|x a IH]; [done|].
  rewrite append_cons. simpl. by rewrite IH, andb_assoc.
Qed.

(** The remainders of a greedy class on a run followed by a character
    outside the class: the text after each suffix of the run, the shortest
    remainder first. *)
Lemma plus_rests_run (cls : ascii → bool) (d t : string) :
  all_chars cls d = true →
  plus_rests cls t = [] →
  Forall (λ r, ∃ pre d', d = pre +:+ d' ∧ r = d' +:+ t) (plus_rests cls (d +:+ t)) ∧
  (d ≠ "" → ∃ others, plus_rests cls (d +:+ t) = t :: others).
Proof.
  intros Hd Ht. induction d as [|x d IH].
  - rewrite append_empty_l, Ht. split; [constructor|done].
  - simpl in Hd. apply andb_true_iff in Hd as [Hx Hd].
    destruct (IH Hd) as [IH1 IH2].
    rewrite append_cons. simpl. rewrite Hx. split.
    + apply Forall_app. split.
      * eapply Forall_impl; [exact IH1|]. intros r (pre & d' & -> & ->).
        exists (String x pre), d'. by rewrite append_cons.
      * constructor; [|constructor]. by exists (String x ""), d.
    + intros _. destruct d as [|y d].
      * rewrite append_empty_l, Ht. by exists [].
      * destruct IH2 as [others ->]; [done|]. by eexists.
Qed.

Lemma rmatch_Cat_first r1 r2 s g1 s1 g2 s2 :
  (∃ tl, rmatch r1 s = (g1, s1) :: tl) →
  (∃ tl, rmatch r2 s1 = (g2, s2) :: tl) →
  ∃ tl, rmatch (Cat r1 r2) s = (g1 ++ g2, s2) :: tl.
Proof. intros [tl1 H1] [tl2 H2]. simpl. rewrite H1. simpl. rewrite H2. simpl. by eexists. Qed.

(** Candidates on which the rest of the expression fails are passed over. *)
Lemma rmatch_Cat_skip r1 r2 s (l1 : list (Match * string)) g1 s1 tl1 g2 s2 :
  rmatch r1 s = l1 ++ (g1, s1) :: tl1 →
  Forall (λ m, rmatch r2 m.2 = []) l1 →
  (∃ tl, rmatch r2 s1 = (g2, s2) :: tl) →
  ∃ tl, rmatch (Cat r1 r2) s = (g1 ++ g2, s2) :: tl.
Proof.
  intros H1 Hl1 [tl2 H2].
  assert (flat_map
            (λ m1 : Match * string,
               map (λ m2 : Match * string, (m1.1 ++ m2.1, m2.2)) (rmatch r2 m1.2)) l1
          = []) as E.
  { clear H1. induction Hl1 as [|m l Hm _ IH]; simpl; [done|]. by rewrite Hm, IH. }
  simpl. rewrite H1, flat_map_app, E. simpl. rewrite H2. simpl. by eexists.
Qed.

(** [_z<digits>.tif]: the tail of the expression reads it whole. *)
Lemma rmatch_tail (d : string) :
  spec_digits d = true →
  ∃ tl, rmatch (Cat (Lit "_z") (Cat (Group "z" (ClassPlus digit))
                                    (Cat AnyChar (Lit "tif"))))
               ("_z" +:+ d +:+ ".tif")
        = ([("z", d)], "") :: tl.
Proof.
  intros [Hne Hd]%andb_true_iff.
  assert (d ≠ "") by (intros ->; done).
  destruct (plus_rests_run digit d ".tif" Hd eq_refl) as [_ [others Ho]]; [done|].
  apply (rmatch_Cat_first _ _ _ [] (d +:+ ".tif") [("z", d)] "").
  - exists []. cbn [rmatch]. by rewrite prefix_append, skip_append.
  - apply (rmatch_Cat_first _ _ _ [("z", d)] ".tif" [] "").
    + eexists. cbn [rmatch]. rewrite Ho. cbn [map fst snd].
      rewrite substring_append. reflexivity.
    + exists []. by vm_compute.
Qed.

Lemma digit_stain_char (d : string) :
  all_chars digit d = true → all_chars stain_char d = true.
Proof.
  induction d as [|x d IH]; [done|]. simpl.
  intros [Hx Hd]%andb_true_iff. rewrite IH by done.
  unfold stain_char, word. by rewrite Hx, !orb_true_r.
Qed.

Lemma digit_not_underscore (x : ascii) (s : string) :
  digit x = true → String.prefix "_z" (String x s) = false.
Proof.
  intros Hx. cbn [String.prefix].
  destruct (ascii_dec "_" x) as [<-|]; [by vm_compute in Hx|reflexivity].
Qed.

(** After a suffix of the digits, with or without one more digit taken,
    what is left does not start with [_z]. *)
Lemma opt_rests_digits_tif (d : string) :
  all_chars digit d = true →
  Forall (λ r, String.prefix "_z" r = false) (opt_rests digit (d +:+ ".tif")).
Proof.
  destruct d as [|x d]; [by repeat constructor|].
  simpl. intros [Hx Hd]%andb_true_iff.
  rewrite append_cons. simpl. rewrite Hx.
  constructor; [|constructor; [|constructor]].
  - destruct d as [|y d]; [done|].
    simpl in Hd. apply andb_true_iff in Hd as [Hy _].
    rewrite append_cons. by apply digit_not_underscore.
  - by apply digit_not_underscore.
Qed.

(** The candidates for the stain group on a run followed by
    [_z<digits>.tif]: the first one that leaves a text starting with [_z]
    ends after the run. *)
Lemma stain_candidates (s d : string) :
  is_run s = true → all_chars digit d = true →
  let u := "_z" +:+ d +:+ ".tif" in
  ∃ l1 l2,
    flat_map (opt_rests digit) (plus_rests stain_char (s +:+ u)) = l1 ++ u :: l2 ∧
    Forall (λ r, String.prefix "_z" r = false) l1.
Proof.
  intros [Hne Hs]%andb_true_iff Hd u.
  assert (Hu : Forall (λ r, String.prefix "_z" r = false)
                 (flat_map (opt_rests digit) (plus_rests stain_char u))).
  { subst u. change ("_z" +:+ d +:+ ".tif") with (String "_" (String "z" (d +:+ ".tif"))).
    cbn [plus_rests]. change (stain_char "_") with true. change (stain_char "z") with true.
    cbv iota. rewrite !flat_map_app. apply Forall_app. split; [apply Forall_app; split|].
    - destruct (plus_rests_run stain_char d ".tif") as [Hall _];
        [by apply digit_stain_char|done|].
      induction Hall as [|r l (pre & d' & -> & ->) _ IH]; simpl; [constructor|].
      apply Forall_app. split; [|done].
      apply opt_rests_digits_tif.
      rewrite all_chars_append in Hd. by apply andb_true_iff in Hd as [_ ?].
    - simpl. rewrite app_nil_r. by apply opt_rests_digits_tif.
    - simpl. repeat constructor. }
  assert (Hopt : opt_rests digit u = [u]) by done.
  revert Hne Hs. induction s as [|x s IH]; intros Hne Hs; [done|].
  simpl in Hs. apply andb_true_iff in Hs as [Hx Hs].
  rewrite append_cons. cbn [plus_rests]. rewrite Hx, flat_map_app. simpl.
  rewrite app_nil_r.
  destruct s as [|y s].
  - rewrite append_empty_l, Hopt. exists (flat_map (opt_rests digit) (plus_rests stain_char u)), [].
    done.
  - destruct (IH eq_refl Hs) as (l1 & l2 & -> & Hl1).
    exists l1, (l2 ++ opt_rests digit (String y s +:+ u)).
    split; [|done]. by rewrite <- app_assoc.
Qed.

Lemma rmatch_plus_opt (c o : ascii → bool) (s : string) :
  rmatch (Cat (ClassPlus c) (ClassOpt o)) s
  = map (λ r, ([] : Match, r)) (flat_map (opt_rests o) (plus_rests c s)).
Proof.
  cbn [rmatch]. induction (plus_rests c s) as [|r l IH]; [done|].
  cbn [map flat_map fst snd]. rewrite IH, map_app, map_map. done.
Qed.

(** On a name of the documented form the expression is found at the start,
    with the stain and the digits of the name as its groups. *)
Lemma search_documented_name (s d : string) :
  is_run s = true → spec_digits d = true →
  search exp (documented_name s d) = Some [("stain", s); ("z", d)].
Proof.
  intros Hs Hd. unfold documented_name.
  assert (Hdig : all_chars digit d = true) by (by apply andb_true_iff in Hd as [_ ?]).
  destruct (stain_candidates s d Hs Hdig) as (l1 & l2 & Hc & Hl1).
  set (u := "_z" +:+ d +:+ ".tif") in *.
  set (wrap := λ r : string,
         ([("stain",
            String.substring 0 (String.length (s +:+ u) - String.length r) (s +:+ u))]
            : Match, r)).
  assert (H : ∃ tl, rmatch exp ("mosaic_" +:+ s +:+ u) = ([("stain", s); ("z", d)], "") :: tl).
  { apply (rmatch_Cat_first _ _ _ [] (s +:+ u) [("stain", s); ("z", d)] "").
    { exists []. cbn [rmatch]. by rewrite prefix_append, skip_append. }
    apply (rmatch_Cat_skip _ _ _ (map wrap l1) [("stain", s)] u (map wrap l2)
             [("z", d)] "").
    - change (rmatch (Group "stain" (Cat (ClassPlus stain_char) (ClassOpt digit)))
                (s +:+ u))
        with (map (λ m : Match * string,
                     (("stain",
                       String.substring 0
                         (String.length (s +:+ u) - String.length m.2) (s +:+ u)) :: m.1,
                      m.2))
                  (rmatch (Cat (ClassPlus stain_char) (ClassOpt digit)) (s +:+ u))).
      rewrite rmatch_plus_opt, map_map, Hc, map_app. cbn [map fst snd].
      by rewrite substring_append.
    - apply Forall_map. eapply Forall_impl; [exact Hl1|].
      intros r Hr. cbn [snd rmatch wrap]. subst wrap. cbn [snd]. by rewrite Hr.
    - by apply rmatch_tail. }
  destruct H as [tl H].
  destruct s as [|x s]; [done|].
  change ("mosaic_" +:+ String x s +:+ u) with (String "m" ("osaic_" +:+ String x s +:+ u)) in *.
  cbn [search]. by rewrite H.
Qed.

(** On a directory whose entries all have the documented form, the scanner
    returns the stains and the digit strings of the names, and no other. *)
Lemma scan_images_documented (entries : list (string * string)) (x : string) :
  Forall (λ sd, is_run sd.1 = true ∧ spec_digits sd.2 = true) entries →
  let r := _scan_images (map (λ sd, documented_name sd.1 sd.2) entries) in
  (x ∈ r.1 ↔ x ∈ map fst entries) ∧ (x ∈ r.2 ↔ x ∈ map snd entries).
Proof.
  intros Hall r. subst r.
  destruct (scan_images_groups
              (map (λ sd, documented_name sd.1 sd.2) entries) x x) as [H1 H2].
  rewrite H1, H2. rewrite Forall_forall in Hall.
  split; split.
  - intros (n & m & (sd & -> & Hsd)%list_elem_of_fmap & Hm & Hg).
    destruct (Hall sd Hsd) as [Hs Hd].
    rewrite (search_documented_name _ _ Hs Hd) in Hm. injection Hm as <-.
    injection Hg as <-. by apply list_elem_of_fmap_2.
  - intros (sd & -> & Hsd)%list_elem_of_fmap.
    destruct (Hall sd Hsd) as [Hs Hd].
    exists (documented_name sd.1 sd.2), [("stain", sd.1); ("z", sd.2)].
    split_and!; [|by apply search_documented_name|done].
    by apply (list_elem_of_fmap_2 (λ sd, documented_name sd.1 sd.2)).
  - intros (n & m & (sd & -> & Hsd)%list_elem_of_fmap & Hm & Hg).
    destruct (Hall sd Hsd) as [Hs Hd].
    rewrite (search_documented_name _ _ Hs Hd) in Hm. injection Hm as <-.
    injection Hg as <-. by apply list_elem_of_fmap_2.
  - intros (sd & -> & Hsd)%list_elem_of_fmap.
    destruct (Hall sd Hsd) as [Hs Hd].
    exists (documented_name sd.1 sd.2), [("stain", sd.1); ("z", sd.2)].
    split_and!; [|by apply search_documented_name|done].
    by apply (list_elem_of_fmap_2 (λ sd, documented_name sd.1 sd.2)).
Qed.
End scanner_names.

(** ** MERSCOPE: resolving the input paths *)

Section paths_claim.
Import Merscope Samples.

(** C8. When [vpt_outputs] is a directory (a [str] or a [Path]) and neither
    the cellpose nor the watershed candidate exists in it, the resolver
    returns no paths: it raises an assertion error whose message lists the
    two candidate paths, cellpose first, and so names both candidate file
    names. *)
Theorem get_file_paths_no_boundary (K : MerscopeKeys) (exists_ : Path → bool)
    (path : Path) (vpt_outputs : vpt_outputs_t) (dir : Path) :
  vpt_outputs = VptPath dir ∨ (∃ s, vpt_outputs = VptStr s ∧ dir = of_str s) →
  exists_ (dir // CELLPOSE_BOUNDARIES K) = false →
  exists_ (dir // WATERSHED_BOUNDARIES K) = false →
  let cellpose := to_str (dir // CELLPOSE_BOUNDARIES K) in
  let watershed := to_str (dir // WATERSHED_BOUNDARIES K) in
  let msg := "Boundary file not found - expected to find one of these files: "
               +:+ cellpose +:+ ", " +:+ watershed in
  _get_file_paths K exists_ path vpt_outputs = Raise (AssertionError msg) ∧
  (∀ paths, _get_file_paths K exists_ path vpt_outputs ≠ Ok paths) ∧
  contains msg cellpose = true ∧
  contains msg watershed = true ∧
  (of_str (CELLPOSE_BOUNDARIES K)
     = {| anchor := Relative; parts := [CELLPOSE_BOUNDARIES K] |} →
   contains msg (CELLPOSE_BOUNDARIES K) = true) ∧
  (of_str (WATERSHED_BOUNDARIES K)
     = {| anchor := Relative; parts := [WATERSHED_BOUNDARIES K] |} →
   contains msg (WATERSHED_BOUNDARIES K) = true).
Proof.
  intros Hv Hc Hw cellpose watershed msg.
  assert (Hrun : _get_file_paths K exists_ path vpt_outputs = Raise (AssertionError msg)).
  { destruct Hv as [->|(s & -> & ->)]; simpl; by rewrite Hc, Hw. }
  split; [done|]. split; [intros paths; by rewrite Hrun|].
  split; [apply contains_infix|].
  split.
  { replace msg with
      (("Boundary file not found - expected to find one of these files: "
          +:+ cellpose +:+ ", ") +:+ watershed)
      by (subst msg; by rewrite !append_assoc).
    apply contains_suffix. }
  split.
  - intros E. destruct (to_str_joinpath_plain dir _ E) as [a Ha].
    replace msg with
      (("Boundary file not found - expected to find one of these files: " +:+ a)
         +:+ CELLPOSE_BOUNDARIES K +:+ ", " +:+ watershed)
      by (subst msg cellpose; by rewrite Ha, !append_assoc).
    apply contains_infix.
  - intros E. destruct (to_str_joinpath_plain dir _ E) as [a Ha].
    replace msg with
      (("Boundary file not found - expected to find one of these files: "
          +:+ cellpose +:+ ", " +:+ a) +:+ WATERSHED_BOUNDARIES K)
      by (subst msg watershed; by rewrite Ha, !append_assoc).
    apply contains_suffix.
Qed.

Lemma get_file_paths_no_boundary_witness :
  _get_file_paths sample_keys (λ _, false) (of_str "data/region_0") (VptStr "vpt_out")
  = Raise (AssertionError
      "Boundary file not found - expected to find one of these files: vpt_out/cellpose_micron_space.parquet, vpt_out/watershed_micron_space.parquet").
Proof.
  apply (get_file_paths_no_boundary sample_keys (λ _, false) (of_str "data/region_0")
           (VptStr "vpt_out") (of_str "vpt_out")).
  - right. by exists "vpt_out".
  - reflexivity.
  - reflexivity.
Defined.
End paths_claim.

(** ** Visium: the reader and its steps *)

Section visium_facts.
Import Visium.
Context {Circles Table : Type}.
Context (make_unique : list string → list string).
Context (table_update_anndata :
           Expression → string → string → string → string → list Z → result Table).
Context (circles_anndata_from_coordinates :
           list (Q * Q) → Q → string → list Z → result Circles).

Abbreviation reader :=
  (read_visium make_unique table_update_anndata circles_anndata_from_coordinates).

Lemma dict_getitem_Ok {V} (d : dict V) k v :
  dict_getitem d k = Ok v → dict_get k d = Some v.
Proof. unfold dict_getitem. by destruct (dict_get k d); intros [= ->]. Qed.

(** A successful run saw exactly one library, accepted its hires image and
    inverted its hires scale factor. *)
Lemma read_visium_Ok_inv adata coordinate_system_name
    (sd : SpatialData Circles Table) :
  reader adata coordinate_system_name = Ok sd →
  ∃ lib meta hires img scalef factors,
    keys (uns_spatial adata) = [lib] ∧
    dict_get lib (uns_spatial adata) = Some meta ∧
    dict_get "hires" (lib_images meta) = Some hires ∧
    hires_image hires = Ok img ∧
    dict_get "tissue_hires_scalef" (lib_scalefactors meta) = Some scalef ∧
    scale_factors scalef = Ok factors ∧
    let csn := default lib coordinate_system_name in
    images sd = [(csn, img)] ∧
    transformations sd =
      [("/images/" +:+ csn, csn, Some {| scale := factors |});
       ("/points/" +:+ csn, csn, None)].
Proof.
  unfold read_visium. intros H.
  destruct (keys (uns_spatial adata)) as [|lib [|lib' libs]] eqn:Ek; try done.
  simpl in H.
  apply bind_Ok in H as (expression & _ & H).
  apply bind_Ok in H as (meta & Hmeta%dict_getitem_Ok & H).
  apply bind_Ok in H as (diameter & _ & H).
  apply bind_Ok in H as (circles & _ & H).
  apply bind_Ok in H as (hires & Hhires%dict_getitem_Ok & H).
  apply bind_Ok in H as (img & Himg & H).
  apply bind_Ok in H as (scalef & Hs%dict_getitem_Ok & H).
  apply bind_Ok in H as (factors & Hf & H).
  injection H as <-.
  exists lib, meta, hires, img, scalef, factors.
  split_and!; try done; by destruct coordinate_system_name.
Qed.

Lemma sole_library adata lib meta lib' meta' :
  uns_spatial adata = [(lib, meta)] →
  keys (uns_spatial adata) = [lib'] →
  dict_get lib' (uns_spatial adata) = Some meta' →
  lib' = lib ∧ meta' = meta.
Proof.
  intros ->. simpl. intros [= <-]. rewrite String.eqb_refl. by intros [= <-].
Qed.

(** With one library, and once the two constructors, the image step and
    the look-ups go through, the reader returns the assembled container. *)
Lemma read_visium_returns adata coordinate_system_name lib meta
    expression diameter circles hires img scalef :
  let csn := default lib coordinate_system_name in
  let n := length (obs_names adata) in
  uns_spatial adata = [(lib, meta)] →
  table_update_anndata
    {| expr_X := X adata;
       expr_obs_names := make_unique (obs_names adata);
       expr_var_names := make_unique (var_names adata) |}
    ("/points/" +:+ csn) "library_id" "visium_spot_id" ("/points/" +:+ csn)
    (arange n) = Ok expression →
  dict_get "spot_diameter_fullres" (lib_scalefactors meta) = Some diameter →
  circles_anndata_from_coordinates (obsm_spatial adata) (diameter / 2)%Q
    "visium_spot_id" (arange n) = Ok circles →
  dict_get "hires" (lib_images meta) = Some hires →
  hires_image hires = Ok img →
  dict_get "tissue_hires_scalef" (lib_scalefactors meta) = Some scalef →
  Qeq_bool scalef 0 = false →
  reader adata coordinate_system_name
  = Ok {| images := [(csn, img)];
          points := [(csn, circles)];
          table := expression;
          transformations :=
            [("/images/" +:+ csn, csn,
              Some {| scale := [1%Q; (1 / scalef)%Q; (1 / scalef)%Q] |});
             ("/points/" +:+ csn, csn, None)] |}.
Proof.
  intros csn n Huns Ht Hd Hc Hh Hi Hs H0.
  assert (Ecsn : match coordinate_system_name with Some n0 => n0 | None => lib end = csn)
    by (by destruct coordinate_system_name).
  unfold read_visium. rewrite Huns. cbn [keys map fst length Nat.eqb assert_ bind].
  rewrite Ecsn. fold n. rewrite Ht. cbn [bind].
  unfold dict_getitem at 1. cbn [dict_get]. rewrite String.eqb_refl. cbn [bind].
  unfold dict_getitem. rewrite Hd. cbn [bind]. rewrite Hc. cbn [bind].
  rewrite Hh. cbn [bind]. rewrite Hi. cbn [bind]. rewrite Hs. cbn [bind].
  unfold scale_factors, truediv. rewrite H0. reflexivity.
Qed.
End visium_facts.

(** ** Visium: the image check *)

Section image_facts.
Import Visium.

Lemma fold_min_le (vs : list Q) (v : Q) :
  (fold_left Qmin_b vs v <= v)%Q ∧ Forall (λ x, (fold_left Qmin_b vs v <= x)%Q) vs.
Proof.
  revert v. induction vs as [|y vs IH]; intros v; simpl.
  - split; [apply Qle_refl|constructor].
  - destruct (IH (Qmin_b v y)) as [H1 H2].
    assert (Hv : (Qmin_b v y <= v)%Q ∧ (Qmin_b v y <= y)%Q).
    { unfold Qmin_b. destruct (Qle_bool v y) eqn:E.
      - apply Qle_bool_iff in E. split; [apply Qle_refl|done].
      - split; [|apply Qle_refl]. apply Qlt_le_weak, Qnot_le_lt.
        intros Hc. apply Qle_bool_iff in Hc. congruence. }
    destruct Hv as [Hv Hy].
    split; [eapply Qle_trans; [exact H1|exact Hv]|].
    constructor; [eapply Qle_trans; [exact H1|exact Hy]|done].
Qed.

Lemma fold_min_elem (vs : list Q) (v : Q) : fold_left Qmin_b vs v ∈ v :: vs.
Proof.
  revert v. induction vs as [|y vs IH]; intros v; simpl; [left|].
  specialize (IH (Qmin_b v y)). unfold Qmin_b in *.
  destruct (Qle_bool v y).
  - apply elem_of_cons in IH as [->|IH]; [left|by right; right].
  - by right.
Qed.

Lemma fold_max_ge (vs : list Q) (v : Q) :
  (v <= fold_left Qmax_b vs v)%Q ∧ Forall (λ x, (x <= fold_left Qmax_b vs v)%Q) vs.
Proof.
  revert v. induction vs as [|y vs IH]; intros v; simpl.
  - split; [apply Qle_refl|constructor].
  - destruct (IH (Qmax_b v y)) as [H1 H2].
    assert (Hv : (v <= Qmax_b v y)%Q ∧ (y <= Qmax_b v y)%Q).
    { unfold Qmax_b. destruct (Qle_bool v y) eqn:E.
      - apply Qle_bool_iff in E. split; [done|apply Qle_refl].
      - split; [apply Qle_refl|]. apply Qlt_le_weak, Qnot_le_lt.
        intros Hc. apply Qle_bool_iff in Hc. congruence. }
    destruct Hv as [Hv Hy].
    split; [eapply Qle_trans; [exact Hv|exact H1]|].
    constructor; [eapply Qle_trans; [exact Hy|exact H1]|done].
Qed.

Lemma fold_max_elem (vs : list Q) (v : Q) : fold_left Qmax_b vs v ∈ v :: vs.
Proof.
  revert v. induction vs as [|y vs IH]; intros v; simpl; [left|].
  specialize (IH (Qmax_b v y)). unfold Qmax_b in *.
  destruct (Qle_bool v y).
  - by right.
  - apply elem_of_cons in IH as [->|IH]; [left|by right; right].
Qed.

Lemma np_min_spec (a : NDArray) lo :
  np_min a = Ok lo → lo ∈ flat a ∧ Forall (λ x, (lo <= x)%Q) (flat a).
Proof.
  unfold np_min. destruct (flat a) as [|v vs]; [done|]. intros [= <-].
  split; [apply fold_min_elem|].
  destruct (fold_min_le vs v). by constructor.
Qed.

Lemma np_max_spec (a : NDArray) hi :
  np_max a = Ok hi → hi ∈ flat a ∧ Forall (λ x, (x <= hi)%Q) (flat a).
Proof.
  unfold np_max. destruct (flat a) as [|v vs]; [done|]. intros [= <-].
  split; [apply fold_max_elem|].
  destruct (fold_max_ge vs v). by constructor.
Qed.

(** The image step succeeds exactly on float32 images with at least one value
    and all values within [0, 1]; its result is then the rescaled image. *)
Lemma hires_image_Ok (hires : NDArray) (img : DataArray) :
  hires_image hires = Ok img ↔
  arr_dtype hires = float32 ∧ flat hires ≠ [] ∧ normalized hires ∧
  img = {| da_values := rescale_uint8 hires; da_dims := ["y"; "x"; "c"] |}.
Proof.
  unfold hires_image, normalized. split.
  - destruct (dtype_eqb (arr_dtype hires) float32) eqn:Ed; simpl; [|done].
    assert (arr_dtype hires = float32) by (by destruct (arr_dtype hires)).
    destruct (np_min hires) as [lo|] eqn:Elo; simpl; [|done].
    destruct (Qle_bool 0 lo) eqn:E0; simpl; [|done].
    destruct (np_max hires) as [hi|] eqn:Ehi; simpl; [|done].
    destruct (Qle_bool hi 1) eqn:E1; simpl; [|done].
    intros [= <-].
    apply np_min_spec in Elo as [Hlo Hmin]. apply np_max_spec in Ehi as [_ Hmax].
    apply Qle_bool_iff in E0, E1.
    split_and!; try done.
    + intros E. rewrite E in Hlo. by apply elem_of_nil in Hlo.
    + rewrite Forall_forall in Hmin, Hmax |- *. intros v Hv. split.
      * eapply Qle_trans; [exact E0|by apply Hmin].
      * eapply Qle_trans; [by apply Hmax|exact E1].
  - intros (Hd & Hne & Hn & ->). rewrite Hd. simpl.
    unfold np_min, np_max. destruct (flat hires) as [|v vs] eqn:Ef; [done|]. simpl.
    rewrite Forall_forall in Hn.
    destruct (Hn _ (fold_min_elem vs v)) as [Hlo _].
    destruct (Hn _ (fold_max_elem vs v)) as [_ Hhi].
    apply Qle_bool_iff in Hlo, Hhi. by rewrite Hlo, Hhi.
Qed.

(** Whenever the image step raises on an image that has a value, the
    exception is the assertion's. *)
Lemma hires_image_Raise (hires : NDArray) (e : exn) :
  hires_image hires = Raise e → flat hires ≠ [] ∨ arr_dtype hires ≠ float32 →
  e = AssertionError "".
Proof.
  unfold hires_image, np_min, np_max.
  destruct (dtype_eqb (arr_dtype hires) float32) eqn:Ed; simpl.
  - assert (arr_dtype hires = float32) by (by destruct (arr_dtype hires)).
    destruct (flat hires) as [|v vs]; [intros _ [?|?]; done|]. simpl.
    destruct (Qle_bool 0 _); simpl; [|by intros [= <-]].
    destruct (Qle_bool _ 1); simpl; [done|by intros [= <-]].
  - by intros [= <-].
Qed.

Lemma to_uint8_range (q : Q) :
  ∃ n : Z, to_uint8 q = inject_Z n ∧ (0 ≤ n ≤ 255)%Z.
Proof.
  unfold to_uint8. eexists. split; [done|].
  pose proof (Z.mod_pos_bound (Z.quot (Qnum q) (Zpos (Qden q))) 256). lia.
Qed.
End image_facts.

Section visium_claims.
Import Visium Samples.
Context {Circles Table : Type}.
Context (make_unique : list string → list string).
Context (table_update_anndata :
           Expression → string → string → string → string → list Z → result Table).
Context (circles_anndata_from_coordinates :
           list (Q * Q) → Q → string → list Z → result Circles).

Abbreviation reader :=
  (read_visium make_unique table_update_anndata circles_anndata_from_coordinates).

Lemma flat_rescale_uint8 (a : NDArray) :
  flat (rescale_uint8 a) = map (λ v, to_uint8 (v * 255)) (flat a).
Proof.
  unfold flat. simpl. by rewrite <- !concat_map.
Qed.

Lemma not_Ok_raises {A} (m : result A) : (∀ a, m ≠ Ok a) → raises m.
Proof. destruct m as [a|e]; intros H; [by destruct (H a)|by exists e]. Qed.

(** C7, as the code has it.  An image of integer dtype, or with a value
    outside [0, 1], fails the assertion and is not rescaled, and the reader
    raises.  An image of dtype float32 that has a value and whose values are
    all within [0, 1] is rescaled to uint8, with values from 0 to 255; the
    reader returns no image layer but such a rescaled one. *)
Theorem hires_image_checked (hires : NDArray) :
  (is_integer_dtype (arr_dtype hires) = true ∨
   (∃ v, v ∈ flat hires ∧ ¬ ((0 <= v)%Q ∧ (v <= 1)%Q)) →
   hires_image hires = Raise (AssertionError "") ∧
   ∀ adata coordinate_system_name lib meta,
     uns_spatial adata = [(lib, meta)] →
     dict_get "hires" (lib_images meta) = Some hires →
     raises (reader adata coordinate_system_name)) ∧
  (arr_dtype hires = float32 → flat hires ≠ [] → normalized hires →
   hires_image hires
     = Ok {| da_values := rescale_uint8 hires; da_dims := ["y"; "x"; "c"] |} ∧
   arr_dtype (rescale_uint8 hires) = uint8 ∧
   Forall (λ v, ∃ n : Z, v = inject_Z n ∧ (0 ≤ n ≤ 255)%Z)
          (flat (rescale_uint8 hires)) ∧
   ∀ adata coordinate_system_name lib meta expression diameter circles scalef,
     let csn := default lib coordinate_system_name in
     let n := length (obs_names adata) in
     uns_spatial adata = [(lib, meta)] →
     dict_get "hires" (lib_images meta) = Some hires →
     table_update_anndata
       {| expr_X := X adata;
          expr_obs_names := make_unique (obs_names adata);
          expr_var_names := make_unique (var_names adata) |}
       ("/points/" +:+ csn) "library_id" "visium_spot_id" ("/points/" +:+ csn)
       (arange n) = Ok expression →
     dict_get "spot_diameter_fullres" (lib_scalefactors meta) = Some diameter →
     circles_anndata_from_coordinates (obsm_spatial adata) (diameter / 2)%Q
       "visium_spot_id" (arange n) = Ok circles →
     dict_get "tissue_hires_scalef" (lib_scalefactors meta) = Some scalef →
     Qeq_bool scalef 0 = false →
     ∃ sd, reader adata coordinate_system_name = Ok sd ∧
           images sd
             = [(csn, {| da_values := rescale_uint8 hires;
                         da_dims := ["y"; "x"; "c"] |})]) ∧
  (∀ adata coordinate_system_name lib meta sd,
     uns_spatial adata = [(lib, meta)] →
     dict_get "hires" (lib_images meta) = Some hires →
     reader adata coordinate_system_name = Ok sd →
     arr_dtype hires = float32 ∧ normalized hires ∧
     images sd
       = [(default lib coordinate_system_name,
           {| da_values := rescale_uint8 hires; da_dims := ["y"; "x"; "c"] |})]).
Proof.
  assert (Hreader : ∀ adata coordinate_system_name lib meta sd,
     uns_spatial adata = [(lib, meta)] →
     dict_get "hires" (lib_images meta) = Some hires →
     reader adata coordinate_system_name = Ok sd →
     arr_dtype hires = float32 ∧ normalized hires ∧
     images sd
       = [(default lib coordinate_system_name,
           {| da_values := rescale_uint8 hires; da_dims := ["y"; "x"; "c"] |})]).
  { intros adata csn lib meta sd Huns Hh Hrun.
    apply read_visium_Ok_inv in Hrun
      as (lib' & meta' & hires' & img & s & f & Hk & Hm & Hh' & Himg & _ & _ & Hi & _).
    destruct (sole_library _ _ _ _ _ Huns Hk Hm) as [-> ->].
    rewrite Hh in Hh'. injection Hh' as <-.
    apply hires_image_Ok in Himg as (? & ? & ? & ->). done. }
  split_and!; [|clear Hreader|done].
  - intros Hbad.
    assert (Hno : ∀ img, hires_image hires ≠ Ok img).
    { intros img (Hd & _ & Hn & _)%hires_image_Ok.
      destruct Hbad as [Hint|(v & Hv & Hout)].
      - by rewrite Hd in Hint.
      - unfold normalized in Hn. rewrite Forall_forall in Hn. by apply Hout, Hn. }
    split.
    + destruct (hires_image hires) as [img|e] eqn:E; [by destruct (Hno img)|].
      f_equal. apply (hires_image_Raise hires e E).
      destruct Hbad as [Hint|(v & Hv & _)].
      * right. intros Hd. by rewrite Hd in Hint.
      * left. intros Hf. rewrite Hf in Hv. by apply elem_of_nil in Hv.
    + intros adata csn lib meta Huns Hh. apply not_Ok_raises. intros sd Hrun.
      destruct (Hreader _ _ _ _ _ Huns Hh Hrun) as (Hd & Hn & _).
      apply (Hno {| da_values := rescale_uint8 hires; da_dims := ["y"; "x"; "c"] |}).
      apply hires_image_Ok. split_and!; try done.
      destruct Hbad as [Hint|(v & Hv & _)]; [by rewrite Hd in Hint|].
      intros Hf. rewrite Hf in Hv. by apply elem_of_nil in Hv.
  - intros Hd Hne Hn.
    assert (Hacc : hires_image hires
              = Ok {| da_values := rescale_uint8 hires; da_dims := ["y"; "x"; "c"] |})
      by (by apply hires_image_Ok).
    split_and!.
    + done.
    + done.
    + rewrite flat_rescale_uint8. apply Forall_map, Forall_forall.
      intros v _. apply to_uint8_range.
    + intros adata csn0 lib meta expression diameter circles scalef csn n
             Huns Hh Ht Hdia Hc Hs H0.
      eexists. split.
      * by apply (read_visium_returns make_unique table_update_anndata
                    circles_anndata_from_coordinates adata csn0 lib meta
                    expression diameter circles hires
                    {| da_values := rescale_uint8 hires; da_dims := ["y"; "x"; "c"] |}
                    scalef).
      * done.
Qed.

(** C9. The reader asserts that the metadata holds exactly one library: with
    none, or with more than one, it raises the assertion error, and a run
    that returns has seen exactly one. *)
Theorem read_visium_one_library (adata : AnnData)
    (coordinate_system_name : option string) :
  (uns_spatial adata = [] →
   reader adata coordinate_system_name = Raise (AssertionError "")) ∧
  (1 < length (keys (uns_spatial adata)) →
   reader adata coordinate_system_name = Raise (AssertionError "")) ∧
  (length (keys (uns_spatial adata)) ≠ 1 →
   reader adata coordinate_system_name = Raise (AssertionError "")) ∧
  (∀ sd, reader adata coordinate_system_name = Ok sd →
         length (keys (uns_spatial adata)) = 1).
Proof.
  assert (Hne : length (keys (uns_spatial adata)) ≠ 1 →
                reader adata coordinate_system_name = Raise (AssertionError "")).
  { intros H. unfold read_visium.
    by destruct (keys (uns_spatial adata)) as [|lib [|lib' libs]]. }
  split_and!; try done.
  - intros E. apply Hne. by rewrite E.
  - intros H. apply Hne. lia.
  - intros sd Hrun.
    destruct (decide (length (keys (uns_spatial adata)) = 1)) as [|Hn]; [done|].
    by rewrite (Hne Hn) in Hrun.
Qed.

(** C10. The assertion compares the dtype with float32 itself: an image of
    any other dtype, float64 included, fails it whatever its values, and the
    reader returns nothing for it. *)
Theorem hires_image_requires_float32 (hires : NDArray) :
  arr_dtype hires ≠ float32 →
  hires_image hires = Raise (AssertionError "") ∧
  ∀ adata coordinate_system_name lib meta,
    uns_spatial adata = [(lib, meta)] →
    dict_get "hires" (lib_images meta) = Some hires →
    raises (reader adata coordinate_system_name).
Proof.
  intros Hd.
  assert (E : hires_image hires = Raise (AssertionError "")).
  { unfold hires_image.
    assert (dtype_eqb (arr_dtype hires) float32 = false) as ->; [|done].
    by destruct (arr_dtype hires). }
  split; [done|].
  intros adata csn lib meta Huns Hh. apply not_Ok_raises. intros sd Hrun.
  apply read_visium_Ok_inv in Hrun
    as (lib' & meta' & hires' & img & s & f & Hk & Hm & Hh' & Himg & _).
  destruct (sole_library _ _ _ _ _ Huns Hk Hm) as [-> ->].
  rewrite Hh in Hh'. injection Hh' as <-. by rewrite E in Himg.
Qed.

(** C4. For a library whose [tissue_hires_scalef] is 0.5, the transform the
    reader attaches to the image layer is the scale vector (1, 2, 2): this
    much is the code's.  Read as the spec reads it ([scale_axes], modelled
    from the spec), the factor is 1 on the channel axis and 2, the inverse
    of the scale factor, on both spatial axes.  The reader does return
    whenever its other steps go through. *)
Theorem visium_scale_half (adata : AnnData) (coordinate_system_name : option string)
    (lib : string) (meta : Library) (scalef : Q) :
  uns_spatial adata = [(lib, meta)] →
  dict_get "tissue_hires_scalef" (lib_scalefactors meta) = Some scalef →
  (scalef == 1 # 2)%Q →
  let csn := default lib coordinate_system_name in
  let n := length (obs_names adata) in
  scale_factors (1 # 2) = Ok [1%Q; 2%Q; 2%Q] ∧
  (∀ sd, reader adata coordinate_system_name = Ok sd →
     ∃ t fc fy fx,
       transformations sd
         = [("/images/" +:+ csn, csn, Some t); ("/points/" +:+ csn, csn, None)] ∧
       scale t = [fc; fy; fx] ∧
       factor_on t "c" = Some fc ∧ (fc == 1)%Q ∧
       factor_on t "y" = Some fy ∧ (fy == 2)%Q ∧
       factor_on t "x" = Some fx ∧ (fx == 2)%Q) ∧
  (∀ expression diameter circles hires img,
     table_update_anndata
       {| expr_X := X adata;
          expr_obs_names := make_unique (obs_names adata);
          expr_var_names := make_unique (var_names adata) |}
       ("/points/" +:+ csn) "library_id" "visium_spot_id" ("/points/" +:+ csn)
       (arange n) = Ok expression →
     dict_get "spot_diameter_fullres" (lib_scalefactors meta) = Some diameter →
     circles_anndata_from_coordinates (obsm_spatial adata) (diameter / 2)%Q
       "visium_spot_id" (arange n) = Ok circles →
     dict_get "hires" (lib_images meta) = Some hires →
     hires_image hires = Ok img →
     ∃ sd, reader adata coordinate_system_name = Ok sd).
Proof.
  intros Huns Hs Heq csn n.
  assert (H0 : Qeq_bool scalef 0 = false).
  { destruct (Qeq_bool scalef 0) eqn:E; [|done].
    apply Qeq_bool_iff in E. rewrite E in Heq. by vm_compute in Heq. }
  split_and!.
  - reflexivity.
  - intros sd Hrun.
    apply read_visium_Ok_inv in Hrun
      as (lib' & meta' & hires & img & s & f & Hk & Hm & _ & _ & Hs' & Hf & _ & Ht).
    destruct (sole_library _ _ _ _ _ Huns Hk Hm) as [-> ->].
    rewrite Hs in Hs'. injection Hs' as <-.
    unfold scale_factors, truediv in Hf. rewrite H0 in Hf.
    simpl in Hf. injection Hf as <-.
    exists {| scale := [1%Q; (1 / scalef)%Q; (1 / scalef)%Q] |}, 1%Q,
           (1 / scalef)%Q, (1 / scalef)%Q.
    assert (Hinv : (1 / scalef == 2)%Q) by (by rewrite Heq).
    split_and!; done.
  - intros expression diameter circles hires img Ht Hd Hc Hh Hi.
    eexists.
    by apply (read_visium_returns make_unique table_update_anndata
                circles_anndata_from_coordinates adata coordinate_system_name
                lib meta expression diameter circles hires img scalef).
Qed.
End visium_claims.

Section visium_examples.
Import Visium Samples.

Lemma sample_hires_normalized : normalized sample_hires.
Proof. repeat constructor; by vm_compute. Qed.

Lemma hires_image_checked_witness :
  hires_image sample_hires
  = Ok {| da_values := {| arr_dtype := uint8;
                          arr_data := [[[0%Q]; [127%Q]; [255%Q]]] |};
          da_dims := ["y"; "x"; "c"] |}.
Proof.
  destruct (hires_image_checked (λ names, names) sample_table_update sample_circles
              sample_hires) as (_ & Hacc & _).
  destruct (Hacc eq_refl ltac:(discriminate) sample_hires_normalized) as (E & _).
  exact E.
Defined.

(** C7, as stated, fails for a floating-point image that is not float32:
    float64 values within [0, 1] are not rescaled, the assertion fails. *)
Lemma hires_image_rejects_float64 :
  is_floating_dtype (arr_dtype sample_hires_float64) = true ∧
  normalized sample_hires_float64 ∧
  hires_image sample_hires_float64 = Raise (AssertionError "") ∧
  sample_read_visium (sample_adata [("lib1", sample_library sample_hires_float64)]) None
  = Raise (AssertionError "").
Proof.
  split_and!; [done| |by vm_compute|by vm_compute].
  repeat constructor; by vm_compute.
Qed.

Lemma hires_image_requires_float32_witness :
  hires_image sample_hires_float64 = Raise (AssertionError "") ∧
  raises (sample_read_visium
            (sample_adata [("lib1", sample_library sample_hires_float64)]) None).
Proof.
  destruct (hires_image_requires_float32 (λ names, names) sample_table_update
              sample_circles sample_hires_float64 ltac:(discriminate)) as [E Hr].
  split; [exact E|].
  apply (Hr (sample_adata [("lib1", sample_library sample_hires_float64)]) None
            "lib1" (sample_library sample_hires_float64)); reflexivity.
Defined.

Example read_visium_no_library :
  sample_read_visium (sample_adata []) None = Raise (AssertionError "").
Proof. reflexivity. Qed.

Example read_visium_two_libraries :
  sample_read_visium
    (sample_adata [("lib1", sample_library sample_hires);
                   ("lib2", sample_library sample_hires)]) None
  = Raise (AssertionError "").
Proof. reflexivity. Qed.

Lemma visium_scale_half_witness :
  ∃ sd t,
    sample_read_visium (sample_adata [("lib1", sample_library sample_hires)]) None
      = Ok sd ∧
    transformations sd
      = [("/images/lib1", "lib1", Some t); ("/points/lib1", "lib1", None)] ∧
    factor_on t "c" = Some 1%Q ∧
    factor_on t "y" = Some 2%Q ∧
    factor_on t "x" = Some 2%Q.
Proof.
  destruct (visium_scale_half (λ names, names) sample_table_update sample_circles
              (sample_adata [("lib1", sample_library sample_hires)]) None
              "lib1" (sample_library sample_hires) (1 # 2)
              eq_refl eq_refl ltac:(reflexivity))
    as (_ & Hscale & Hret).
  destruct (Hret _ _ _ _ _ eq_refl eq_refl eq_refl eq_refl hires_image_checked_witness)
    as [sd E].
  destruct (Hscale sd E) as (t & fc & fy & fx & Ht & Hs & _).
  exists sd, t. split; [exact E|]. split; [exact Ht|].
  vm_compute in E. injection E as <-.
  simpl in Ht. injection Ht as <-. repeat split.
Defined.
End visium_examples.

(** ** MERSCOPE: what the scanner returns *)

Section scanner_groups.
Import Merscope.

Lemma elem_rmatch_Cat r1 r2 s g rest :
  (g, rest) ∈ rmatch (Cat r1 r2) s →
  ∃ g1 s1 g2, (g1, s1) ∈ rmatch r1 s ∧ (g2, rest) ∈ rmatch r2 s1 ∧ g = g1 ++ g2.
Proof.
  cbn [rmatch]. rewrite list_elem_of_In, in_flat_map.
  intros ([g1 s1] & H1 & H2). apply in_map_iff in H2 as ([g2 s2] & [= <- <-] & H2).
  exists g1, s1, g2. by rewrite !list_elem_of_In.
Qed.

Lemma elem_rmatch_Lit l s g rest : (g, rest) ∈ rmatch (Lit l) s → g = [].
Proof.
  cbn [rmatch]. destruct (String.prefix l s); [|by intros ?%elem_of_nil].
  by intros [= -> _]%list_elem_of_singleton.
Qed.

Lemma elem_rmatch_Group n r s g rest :
  (g, rest) ∈ rmatch (Group n r) s →
  ∃ g', (g', rest) ∈ rmatch r s ∧
        g = (n, String.substring 0 (String.length s - String.length rest) s) :: g'.
Proof.
  cbn [rmatch]. intros ([g' rest'] & [= -> ->] & H)%list_elem_of_fmap. by exists g'.
Qed.

(** What a greedy class leaves: the text after a non-empty run of the
    class. *)
Lemma elem_plus_rests cls s rest :
  rest ∈ plus_rests cls s →
  ∃ pre, s = pre +:+ rest ∧ pre ≠ "" ∧ all_chars cls pre = true.
Proof.
  revert rest. induction s as [|c s IH]; intros rest; simpl; [by intros ?%elem_of_nil|].
  destruct (cls c) eqn:Hc; [|by intros ?%elem_of_nil].
  intros [H| ->%list_elem_of_singleton]%elem_of_app.
  - destruct (IH _ H) as (pre & -> & _ & Hpre).
    exists (String c pre). split_and!; [done|done|]. simpl. by rewrite Hc.
  - exists (String c ""). split_and!; [done|done|]. simpl. by rewrite Hc.
Qed.

Lemma elem_opt_rests cls s rest :
  rest ∈ opt_rests cls s →
  rest = s ∨ ∃ c, s = String c rest ∧ cls c = true.
Proof.
  destruct s as [|c s]; simpl; [intros ->%list_elem_of_singleton; by left|].
  destruct (cls c) eqn:Hc.
  - intros [->|[->|[]%elem_of_nil]%elem_of_cons]%elem_of_cons; [right; by exists c|by left].
  - intros ->%list_elem_of_singleton. by left.
Qed.

Lemma append_empty_r (a : string) : a +:+ "" = a.
Proof. induction a as [|x a IH]; [done|]. rewrite append_cons. by f_equal. Qed.

Lemma all_chars_impl (c1 c2 : ascii → bool) (s : string) :
  (∀ x, c1 x = true → c2 x = true) → all_chars c1 s = true → all_chars c2 s = true.
Proof.
  intros Hc. induction s as [|x s IH]; [done|]. simpl.
  intros [Hx Hs]%andb_true_iff. by rewrite (Hc x Hx), IH.
Qed.

Lemma is_run_intro (pre : string) :
  pre ≠ "" → all_chars stain_char pre = true → is_run pre = true.
Proof.
  intros Hne Hall. unfold is_run. rewrite Hall, andb_true_r.
  destruct pre; [done|reflexivity].
Qed.

(** Every way the expression matches yields a stain group that is a
    non-empty run of stain characters and a z group of one or more digits. *)
Lemma rmatch_exp_groups s g rest :
  (g, rest) ∈ rmatch exp s →
  ∃ stain z, g = [("stain", stain); ("z", z)] ∧
             is_run stain = true ∧ spec_digits z = true.
Proof.
  unfold exp.
  intros (g1 & s1 & g2 & H1 & H2 & ->)%elem_rmatch_Cat.
  apply elem_rmatch_Lit in H1 as ->.
  apply elem_rmatch_Cat in H2 as (g3 & s3 & g4 & H3 & H4 & ->).
  apply elem_rmatch_Group in H3 as (g3' & H3 & ->).
  apply elem_rmatch_Cat in H3 as (ga & sa & gb & Ha & Hb & ->).
  cbn [rmatch] in Ha, Hb.
  apply list_elem_of_fmap in Ha as (ra & [= -> ->] & Ha).
  apply list_elem_of_fmap in Hb as (rb & [= -> ->] & Hb).
  apply elem_plus_rests in Ha as (pre & -> & Hne & Hpre).
  apply elem_rmatch_Cat in H4 as (g5 & s5 & g6 & H5 & H6 & ->).
  apply elem_rmatch_Lit in H5 as ->.
  apply elem_rmatch_Cat in H6 as (g7 & s7 & g8 & H7 & H8 & ->).
  apply elem_rmatch_Group in H7 as (g7' & H7 & ->).
  cbn [rmatch] in H7.
  apply list_elem_of_fmap in H7 as (r7 & [= -> ->] & H7).
  apply elem_plus_rests in H7 as (dz & -> & Hnz & Hdz).
  apply elem_rmatch_Cat in H8 as (g9 & s9 & g10 & H9 & H10 & ->).
  apply elem_rmatch_Lit in H10 as ->.
  assert (g9 = []) as ->.
  { cbn [rmatch] in H9. destruct r7 as [|c r7]; [by apply elem_of_nil in H9|].
    destruct (Ascii.eqb c newline); [by apply elem_of_nil in H9|].
    by apply list_elem_of_singleton in H9 as [= -> _]. }
  rewrite substring_append.
  eexists _, dz. split; [reflexivity|]. split.
  - apply elem_opt_rests in Hb as [->|(c & -> & Hc)].
    + rewrite substring_append. by apply is_run_intro.
    + replace (pre +:+ String c rb) with ((pre +:+ String c "") +:+ rb)
        by (by rewrite append_assoc).
      rewrite substring_append. apply is_run_intro.
      * by destruct pre.
      * rewrite all_chars_append, Hpre. simpl.
        unfold stain_char, word. by rewrite Hc, !orb_true_r.
  - unfold spec_digits. rewrite Hdz, andb_true_r. by destruct dz.
Qed.

Lemma search_groups n m :
  search exp n = Some m →
  ∃ stain z, m = [("stain", stain); ("z", z)] ∧
             is_run stain = true ∧ spec_digits z = true.
Proof.
  induction n as [|c n IH]; cbn [search].
  - destruct (rmatch exp "") as [|[g rest] tl] eqn:E; [done|].
    intros [= <-]. apply (rmatch_exp_groups "" g rest). rewrite E. left.
  - destruct (rmatch exp (String c n)) as [|[g rest] tl] eqn:E; [exact IH|].
    intros [= <-]. apply (rmatch_exp_groups (String c n) g rest). rewrite E. left.
Qed.

(** The stains and the z-levels returned are those of the names the
    expression is found in, each match giving one stain and one z-level. *)
Lemma scan_images_elements (file_names : list string) (x : string) :
  let r := _scan_images file_names in
  (x ∈ r.1 ↔ ∃ n stain z, n ∈ file_names ∧
               search exp n = Some [("stain", stain); ("z", z)] ∧ x = stain) ∧
  (x ∈ r.2 ↔ ∃ n stain z, n ∈ file_names ∧
               search exp n = Some [("stain", stain); ("z", z)] ∧ x = z).
Proof.
  intros r. unfold r.
  destruct (scan_images_groups file_names x x) as [-> ->]. split; split.
  - intros (n & m & Hin & Hs & Hx).
    destruct (search_groups _ _ Hs) as (stain & z & -> & _).
    injection Hx as <-. by exists n, stain, z.
  - intros (n & stain & z & Hin & Hs & ->). by exists n, [("stain", stain); ("z", z)].
  - intros (n & m & Hin & Hs & Hx).
    destruct (search_groups _ _ Hs) as (stain & z & -> & _).
    injection Hx as <-. by exists n, stain, z.
  - intros (n & stain & z & Hin & Hs & ->). by exists n, [("stain", stain); ("z", z)].
Qed.

Lemma scan_images_NoDup (file_names : list string) :
  NoDup (_scan_images file_names).1 ∧ NoDup (_scan_images file_names).2.
Proof. split; apply NoDup_elements. Qed.

Lemma scan_images_runs (file_names : list string) :
  Forall (λ stain, is_run stain = true) (_scan_images file_names).1 ∧
  Forall (λ z, spec_digits z = true) (_scan_images file_names).2.
Proof.
  split; apply Forall_forall; intros x Hx.
  - apply (scan_images_elements file_names x) in Hx as (n & stain & z & _ & Hs & ->).
    by destruct (search_groups _ _ Hs) as (stain' & z' & [= <- <-] & ? & ?).
  - apply (scan_images_elements file_names x) in Hx as (n & stain & z & _ & Hs & ->).
    by destruct (search_groups _ _ Hs) as (stain' & z' & [= <- <-] & ? & ?).
Qed.

Lemma scan_images_none (file_names : list string) :
  (∀ n, n ∈ file_names → search exp n = None) → _scan_images file_names = ([], []).
Proof.
  intros Hn. destruct (_scan_images file_names) as [st zs] eqn:Er. f_equal.
  - destruct st as [|x st]; [done|]. exfalso.
    destruct (scan_images_elements file_names x) as [[H _] _]. rewrite Er in H.
    destruct H as (n & stain & z' & Hin & Hs & _); [left|].
    by rewrite (Hn n Hin) in Hs.
  - destruct zs as [|x zs]; [done|]. exfalso.
    destruct (scan_images_elements file_names x) as [_ [H _]]. rewrite Er in H.
    destruct H as (n & stain & z' & Hin & Hs & _); [left|].
    by rewrite (Hn n Hin) in Hs.
Qed.

(** The scanner returns each stain and each z-level once; every stain is a
    non-empty run of stain characters and every z-level a non-empty string
    of digits, whatever the names in the directory; it finds stains exactly
    when it finds z-levels, and nothing exactly when no name matches (an
    empty directory included). *)
Theorem scan_images_wellformed (file_names : list string) :
  let r := _scan_images file_names in
  NoDup r.1 ∧ NoDup r.2 ∧
  Forall (λ stain, is_run stain = true) r.1 ∧
  Forall (λ z, spec_digits z = true) r.2 ∧
  (r.1 = [] ↔ r.2 = []) ∧
  ((∀ n, n ∈ file_names → search exp n = None) ↔ r = ([], [])).
Proof.
  intros r.
  assert (Hst := λ x, proj1 (scan_images_elements file_names x)).
  assert (Hzs := λ x, proj2 (scan_images_elements file_names x)).
  cbv zeta in Hst, Hzs. fold r in Hst, Hzs.
  split_and!.
  - apply scan_images_NoDup.
  - apply scan_images_NoDup.
  - apply scan_images_runs.
  - apply scan_images_runs.
  - split.
    + intros E. destruct (r.2) as [|z zs] eqn:Ez; [done|]. exfalso.
      destruct (Hzs z) as [(n & stain & z' & Hin & Hs & _) _]; [left|].
      apply (elem_of_nil stain). rewrite <- E. apply Hst. by exists n, stain, z'.
    + intros E. destruct (r.1) as [|x xs] eqn:Ex; [done|]. exfalso.
      destruct (Hst x) as [(n & stain & z' & Hin & Hs & _) _]; [left|].
      apply (elem_of_nil z'). rewrite <- E. apply Hzs. by exists n, stain, z'.
  - split; [apply scan_images_none|].
    intros Er n Hin. destruct (search exp n) as [m|] eqn:Hs; [exfalso|done].
    destruct (search_groups _ _ Hs) as (stain & z & -> & _).
    apply (elem_of_nil stain).
    replace [] with r.1 by (by rewrite Er). apply Hst. by exists n, stain, z.
Qed.

Lemma scan_images_single n stain z :
  search exp n = Some [("stain", stain); ("z", z)] →
  _scan_images [n] = ([stain], [z]).
Proof.
  intros Hs. unfold _scan_images. cbn [map omap]. rewrite Hs. simpl.
  by rewrite !(right_id_L ∅ (∪)), !elements_singleton.
Qed.

(** The name the reader builds from a stain and a z-level the scanner
    returned has the documented form, and the scanner reads the same stain
    and z-level back from it. *)
Theorem scan_images_rebuilt_name (file_names : list string) (stain z_level : string) :
  stain ∈ (_scan_images file_names).1 →
  z_level ∈ (_scan_images file_names).2 →
  search exp (documented_name stain z_level)
    = Some [("stain", stain); ("z", z_level)] ∧
  _scan_images [documented_name stain z_level] = ([stain], [z_level]).
Proof.
  intros Hs Hz.
  destruct (scan_images_runs file_names) as [H1 H2].
  rewrite Forall_forall in H1, H2.
  assert (E := search_documented_name stain z_level (H1 _ Hs) (H2 _ Hz)).
  split; [done|]. by apply scan_images_single.
Qed.

Lemma scan_images_rebuilt_name_witness :
  _scan_images [documented_name "DAPI" "1"] = (["DAPI"], ["1"]).
Proof.
  apply (scan_images_rebuilt_name
           ["mosaic_DAPI_z0.tif"; "mosaic_DAPI_z1.tif.bak"] "DAPI" "1").
  - by vm_compute; left.
  - by vm_compute; left.
Defined.

Lemma scan_images_documented_witness :
  let r := _scan_images [documented_name "DAPI" "0"; documented_name "Poly-T" "12"] in
  "Poly-T" ∈ r.1 ∧ "12" ∈ r.2.
Proof.
  intros r.
  destruct (scan_images_documented [("DAPI", "0"); ("Poly-T", "12")] "Poly-T")
    as [H1 _]; [by repeat constructor|].
  destruct (scan_images_documented [("DAPI", "0"); ("Poly-T", "12")] "12")
    as [_ H2]; [by repeat constructor|].
  split; [apply H1|apply H2]; simpl; by right; left.
Defined.
End scanner_groups.

(** ** MERSCOPE: the image layers *)

Section images.
Import Merscope.
Context {Array : Type} (W : World Array).

Lemma mapM_Ok {A B} (f : A → result B) (l : list A) (ys : list B) :
  mapM f l = Ok ys ↔ Forall2 (λ x y, f x = Ok y) l ys.
Proof.
  revert ys. induction l as [|x l IH]; intros ys; simpl.
  - split; [intros [= <-]; constructor|by intros ->%Forall2_nil_inv_l].
  - split.
    + intros (y & Hy & H)%bind_Ok. apply bind_Ok in H as (ys' & Hys & [= <-]).
      constructor; [done|by apply IH].
    + intros (y & ys' & Hy & Hys & ->)%Forall2_cons_inv_l.
      rewrite Hy. simpl. apply IH in Hys as ->. done.
Qed.

Lemma mapM_Ok_all {A B} (f : A → result B) (l : list A) :
  (∃ ys, mapM f l = Ok ys) ↔ ∀ x, x ∈ l → ∃ y, f x = Ok y.
Proof.
  induction l as [|x l IH]; simpl.
  - split; [by intros _ x ?%elem_of_nil|by eexists].
  - split.
    + intros [ys (y & Hy & H)%bind_Ok]. apply bind_Ok in H as (ys' & Hys & _).
      intros x' [->|Hx]%elem_of_cons; [by eexists|].
      destruct IH as [IH _]. apply IH; [by eexists|done].
    + intros H. destruct (H x) as [y Hy]; [left|]. rewrite Hy. simpl.
      destruct IH as [_ IH]. destruct IH as [ys ->]; [|by eexists].
      intros x' Hx'. apply H. by right.
Qed.

(** The body of the loop over the scanned z-levels. *)
Abbreviation add_image images_dir stainings :=
  (λ (images : dict (Image Array)) (z_level : string),
     let* im :=
       mapM (λ stain, imread W (images_dir // documented_name stain z_level))
            stainings in
     let parsed_im :=
       mkImage im ["c"; "z"; "y"; "x"] [("pixels", Identity)] stainings in
     Ok (dict_set ("z" +:+ z_level) parsed_im images)).

Lemma add_images_Ok images_dir stainings (todo : list string) :
  ∀ (done_ : list string) (acc : dict (Image Array)),
  NoDup (done_ ++ todo) →
  keys acc = map (String.append "z") done_ →
  Forall (λ kv : string * Image Array,
            c_coords kv.2 = stainings ∧
            length (image_stack kv.2) = length stainings) acc →
  (∀ stain z, stain ∈ stainings → z ∈ todo →
     ∃ a, imread W (images_dir // documented_name stain z) = Ok a) →
  ∃ images,
    foldM (add_image images_dir stainings) todo acc = Ok images ∧
    keys images = map (String.append "z") (done_ ++ todo) ∧
    Forall (λ kv : string * Image Array,
              c_coords kv.2 = stainings ∧
              length (image_stack kv.2) = length stainings) images.
Proof.
  induction todo as [|z todo IH]; intros done_ acc Hnd Hk Hacc Hread.
  - exists acc. by rewrite app_nil_r.
  - cbn [foldM].
    destruct (proj2 (mapM_Ok_all
                (λ stain, imread W (images_dir // documented_name stain z)) stainings))
      as [im Him].
    { intros stain Hs. apply Hread; [done|left]. }
    rewrite Him. cbn [bind].
    destruct (IH (done_ ++ [z])
                 (dict_set ("z" +:+ z)
                    (mkImage im ["c"; "z"; "y"; "x"] [("pixels", Identity)] stainings) acc))
      as (images & Hf & Hkeys & Hall).
    + by rewrite <- app_assoc.
    + rewrite keys_dict_set_notin.
      * by rewrite Hk, map_app.
      * rewrite Hk. intros (z' & E & Hz')%list_elem_of_fmap.
        apply (inj (String.append "z")) in E as <-.
        apply NoDup_app in Hnd as (_ & Hnd & _). apply (Hnd z); [done|left].
    + apply Forall_dict_set; [|done]. simpl. split; [done|].
      apply mapM_Ok in Him. by apply Forall2_length in Him.
    + intros stain z' Hs Hz'. apply Hread; [done|by right].
    + exists images. by rewrite <- app_assoc in Hkeys.
Qed.

Lemma add_images_reads images_dir stainings (todo : list string) :
  ∀ (acc images : dict (Image Array)),
  foldM (add_image images_dir stainings) todo acc = Ok images →
  ∀ stain z, stain ∈ stainings → z ∈ todo →
    ∃ a, imread W (images_dir // documented_name stain z) = Ok a.
Proof.
  induction todo as [|z todo IH]; intros acc images Hf stain z' Hs Hz'.
  - by apply elem_of_nil in Hz'.
  - cbn [foldM] in Hf. apply bind_Ok in Hf as (acc' & Hstep & Hf).
    apply bind_Ok in Hstep as (im & Him & _).
    apply elem_of_cons in Hz' as [->|Hz'].
    + destruct (proj1 (mapM_Ok_all
                  (λ stain, imread W (images_dir // documented_name stain z)) stainings))
        with stain as [a Ha]; [by eexists|done|by eexists].
    + by apply (IH acc' images Hf).
Qed.

(** A run of the image step that returns has read the whole grid of files:
    for every scanned stain and every scanned z-level, the file of the
    documented name was read.  It returns one layer per z-level, named
    [z<level>], in the order of the z-levels, each with the stains as channel
    names and one plane per stain. *)
Theorem read_images_grid (images_dir : Path) (file_names : list string)
    (images : dict (Image Array)) :
  iterdir W images_dir = Ok file_names →
  read_images W images_dir = Ok images →
  let stainings := (_scan_images file_names).1 in
  let z_levels := (_scan_images file_names).2 in
  (∀ stain z, stain ∈ stainings → z ∈ z_levels →
     ∃ a, imread W (images_dir // documented_name stain z) = Ok a) ∧
  keys images = map (String.append "z") z_levels ∧
  Forall (λ kv : string * Image Array,
            c_coords kv.2 = stainings ∧
            length (image_stack kv.2) = length stainings) images.
Proof.
  intros Hdir Hrun stainings z_levels.
  assert (Hfold : foldM (add_image images_dir stainings) z_levels [] = Ok images).
  { unfold read_images in Hrun. rewrite Hdir in Hrun. cbn [bind] in Hrun.
    subst stainings z_levels. by destruct (_scan_images file_names). }
  assert (Hnd : NoDup z_levels) by apply scan_images_NoDup.
  assert (Hread : ∀ stain z, stain ∈ stainings → z ∈ z_levels →
            ∃ a, imread W (images_dir // documented_name stain z) = Ok a).
  { by apply (add_images_reads _ _ _ _ _ Hfold). }
  split; [exact Hread|].
  destruct (add_images_Ok images_dir stainings z_levels [] [])
    as (images' & Hf' & Hk & Hall); [done|done|constructor|exact Hread|].
  rewrite Hfold in Hf'. by injection Hf' as <-.
Qed.

(** A directory in which no name matches gives no image layer, and no
    image file is opened: this is not an error. *)
Theorem read_images_no_match (images_dir : Path) (file_names : list string) :
  iterdir W images_dir = Ok file_names →
  (∀ n, n ∈ file_names → search exp n = None) →
  read_images W images_dir = Ok [].
Proof.
  intros Hdir Hnone. unfold read_images. rewrite Hdir. cbn [bind].
  by rewrite (scan_images_none file_names Hnone).
Qed.
End images.

Section images_examples.
Import Merscope Samples Cases.

Lemma read_images_grid_witness :
  ∃ images, read_images sample_world (of_str "exp/images") = Ok images ∧
            keys images = ["z0"] ∧
            Forall (λ kv : string * Image unit,
                      length (image_stack kv.2) = length (c_coords kv.2)) images.
Proof.
  destruct (read_images sample_world (of_str "exp/images")) as [images|e] eqn:E;
    [|vm_compute in E; discriminate].
  exists images.
  destruct (read_images_grid sample_world (of_str "exp/images")
              ["mosaic_DAPI_z0.tif"; "mosaic_PolyT_z0.tif"] images eq_refl E)
    as (_ & Hkeys & Hall).
  split_and!; [done|by rewrite Hkeys; vm_compute|].
  eapply Forall_impl; [exact Hall|]. by intros kv [-> ->].
Defined.

Lemma read_images_no_match_witness :
  read_images bare_world (of_str "exp/images") = Ok [].
Proof.
  apply (read_images_no_match bare_world (of_str "exp/images")
           ["notes.txt"; "manifest.json"] eq_refl).
  intros n Hn. repeat (apply elem_of_cons in Hn as [->|Hn]; [by vm_compute|]).
  by apply elem_of_nil in Hn.
Defined.
End images_examples.

(** ** MERSCOPE: the inputs of a run *)

Section reader_inputs.
Import Merscope.
Context {Array : Type} (K : MerscopeKeys) (W : World Array).

(** A run that returns has resolved the three paths and read all five
    inputs: the transformation matrix and the transcripts under the root
    path, the boundaries, the counts and the metadata at the resolved paths.
    Its only shape layer is [polygons], carrying the matrix as an affine map
    on (x, y); it has image layers only when [read_tif] is set. *)
Theorem merscope_reads_inputs (path : pathlike) (vpt_outputs : vpt_outputs_t)
    (read_tif : bool) (sd : SpatialData Array) :
  merscope K W path vpt_outputs read_tif = Ok sd →
  let root := Path_ path in
  ∃ count_path obs_path boundaries_path matrix transcript_df geo_df polygons data obs_,
    _get_file_paths K (exists_ W) root vpt_outputs
      = Ok (count_path, obs_path, boundaries_path) ∧
    genfromtxt W (root // IMAGES_DIR K // TRANSFORMATION_FILE K) = Ok matrix ∧
    dd_read_csv W (root // TRANSCRIPTS_FILE K) = Ok transcript_df ∧
    read_parquet W (Path_ boundaries_path) = Ok geo_df ∧
    pd_read_csv W (Path_ count_path) = Ok data ∧
    pd_read_csv W (Path_ obs_path) = Ok obs_ ∧
    z0_boundaries K (float_repr W) geo_df = Ok polygons ∧
    shapes sd = [("polygons",
                  {| shapes_geo := polygons;
                     shapes_transformations :=
                       [("pixels", Affine matrix ["x"; "y"] ["x"; "y"])] |})] ∧
    expression_table K root data obs_ = Ok (table sd) ∧
    (if read_tif then read_images W (root // IMAGES_DIR K) = Ok (images sd)
     else images sd = []).
Proof.
  intros H root. unfold merscope in H.
  apply bind_Ok in H as ([[cp op] bp] & Hp & H).
  apply bind_Ok in H as (matrix & Hm & H).
  apply bind_Ok in H as (imgs & Hi & H).
  apply bind_Ok in H as (tdf & Ht & H).
  apply bind_Ok in H as (tr & _ & H).
  apply bind_Ok in H as (gene & _ & H).
  apply bind_Ok in H as (pts & _ & H).
  apply bind_Ok in H as (geo & Hg & H).
  apply bind_Ok in H as (poly & Hpoly & H).
  apply bind_Ok in H as (data & Hd & H).
  apply bind_Ok in H as (obs_ & Ho & H).
  apply bind_Ok in H as (tbl & Htbl & H).
  injection H as <-. cbn [shapes table images].
  exists cp, op, bp, matrix, tdf, geo, poly, data, obs_.
  split_and!; try done.
  destruct read_tif; [done|by injection Hi as <-].
Qed.

(** Without [read_tif] the images directory is not listed and no image is
    opened: whatever listing and image reader the world offers, the result is
    the same, and a returned dataset has no image layer. *)
Theorem merscope_without_images (path : pathlike) (vpt_outputs : vpt_outputs_t)
    (iterdir' : Path → result (list string)) (imread' : Path → result Array) :
  let W' := {| exists_ := exists_ W; iterdir := iterdir';
               genfromtxt := genfromtxt W; imread := imread';
               dd_read_csv := dd_read_csv W; read_parquet := read_parquet W;
               pd_read_csv := pd_read_csv W;
               PointsModel_parse := PointsModel_parse W;
               float_repr := float_repr W |} in
  merscope K W' path vpt_outputs false = merscope K W path vpt_outputs false ∧
  ∀ sd, merscope K W path vpt_outputs false = Ok sd → images sd = [].
Proof.
  intros W'. split; [reflexivity|].
  intros sd H. unfold merscope in H. cbn [bind] in H.
  apply bind_Ok in H as (paths & _ & H). destruct paths as [[cp op] bp].
  do 10 (apply bind_Ok in H as (? & _ & H)).
  by injection H as <-.
Qed.

End reader_inputs.

Section reader_inputs_examples.
Import Merscope Samples Cases.

Lemma merscope_reads_inputs_witness :
  ∃ sd, merscope sample_keys sample_world (PStr "data/region_0") VptNone true = Ok sd ∧
        keys (shapes sd) = ["polygons"] ∧
        read_images sample_world (of_str "data/region_0" // "images") = Ok (images sd).
Proof.
  destruct (merscope sample_keys sample_world (PStr "data/region_0") VptNone true)
    as [sd|e] eqn:E; [|vm_compute in E; discriminate].
  exists sd.
  destruct (merscope_reads_inputs sample_keys sample_world _ _ _ sd E)
    as (c & o & b & m & t & g & p & d & ob & _ & _ & _ & _ & _ & _ & _ & Hs & _ & Hi).
  split_and!; [done|by rewrite Hs|exact Hi].
Defined.

Lemma merscope_without_images_witness :
  merscope sample_keys bare_world (PStr "data/region_0") VptNone false
  = merscope sample_keys sample_world (PStr "data/region_0") VptNone false.
Proof.
  exact (proj1 (merscope_without_images sample_keys sample_world
                  (PStr "data/region_0") VptNone
                  (iterdir bare_world) (imread bare_world))).
Defined.
End reader_inputs_examples.

(** ** MERSCOPE: the shape of the point layers *)

Section layers.
Import Merscope.

Lemma length_select {A} (mask : list bool) (l : list A) :
  length mask = length l → length (select mask l) = length (List.filter id mask).
Proof.
  revert l. induction mask as [|b mask IH]; intros [|x l]; simpl; try done.
  intros [= E]. destruct b; simpl; by rewrite IH.
Qed.

Lemma z_level_subset_layer transcripts z z_level :
  lookup_column "z" (columns transcripts) = Some z →
  z_level_subset transcripts z z_level = Ok (z_layer transcripts z z_level).
Proof.
  intros Hz. unfold z_level_subset, drop.
  assert (existsb (String.eqb "z")
            (column_names (mask_rows transcripts (map (λ c, cell_eqb c z_level) z)))
          = true) as ->; [|done].
  apply existsb_exists. exists "z". split; [|done].
  apply list_elem_of_In. unfold column_names, mask_rows. simpl. rewrite map_map. simpl.
  by eapply lookup_column_name.
Qed.

Lemma z_layer_shape transcripts z z_level :
  length z = length (index transcripts) →
  rectangular transcripts →
  column_names (z_layer transcripts z z_level)
    = filter (λ n, n ≠ "z") (column_names transcripts) ∧
  rectangular (z_layer transcripts z z_level) ∧
  length (index (z_layer transcripts z z_level))
    = length (List.filter (λ c, cell_eqb c z_level) z).
Proof.
  intros Hlen Hrect. unfold rectangular, column_names, z_layer in *. simpl.
  assert (Hrows : length (select (at_level z z_level) (index transcripts))
                  = length (List.filter (λ c, cell_eqb c z_level) z)).
  { unfold at_level. clear Hrect. revert Hlen.
    generalize (index transcripts). induction z as [|c z IH]; intros [|i idx]; simpl; try done.
    intros [= E]. destruct (cell_eqb c z_level); simpl; by rewrite IH. }
  split_and!; [| |done].
  - clear Hrect. induction (columns transcripts) as [|[n c] cols IH]; simpl; [done|].
    destruct (decide (n ≠ "z")) as [Hn|Hn].
    + rewrite !filter_cons_True by done. simpl. by rewrite IH.
    + by rewrite !filter_cons_False by done.
  - apply Forall_forall. intros nc (Hn & Hin)%list_elem_of_filter.
    apply list_elem_of_fmap in Hin as ([n c] & -> & Hin). simpl.
    rewrite Forall_forall in Hrect. specialize (Hrect _ Hin). simpl in Hrect.
    rewrite Hrows. unfold at_level. clear -Hrect Hlen.
    assert (Hc : length c = length z) by congruence. clear Hrect Hlen.
    revert c Hc. induction z as [|x z IH]; intros [|y c]; simpl; try done.
    intros [= E]. destruct (cell_eqb x z_level); simpl; by rewrite IH.
Qed.

Lemma foldM_invariant {A S} (body : S → A → result S) (P : S → Prop) (l : list A) :
  (∀ s x s', x ∈ l → P s → body s x = Ok s' → P s') →
  ∀ s s', P s → foldM body l s = Ok s' → P s'.
Proof.
  induction l as [|x l IH]; intros Hstep s s' Hs; simpl.
  - by intros [= <-].
  - intros (s1 & H1 & H2)%bind_Ok. eapply IH; [|by eapply (Hstep s x); [left|..]|exact H2].
    intros s0 x0 s0' Hx0. apply Hstep. by right.
Qed.

Lemma sorted_elem_of {A} (key : A → result Z) (l l' : list A) x :
  sorted key l = Ok l' → x ∈ l' → x ∈ l.
Proof.
  unfold sorted. intros (ks & Hks & [= <-])%bind_Ok.
  intros ([k y] & -> & Hl)%list_elem_of_fmap.
  rewrite isort_Permutation in Hl.
  by apply list_elem_of_In, in_combine_r, list_elem_of_In in Hl.
Qed.

Lemma lookup_column_elem_of name cols c :
  lookup_column name cols = Some c → (name, c) ∈ cols.
Proof.
  induction cols as [|[n c'] cols IH]; simpl; [done|].
  destruct (String.eqb n name) eqn:E.
  - apply String.eqb_eq in E as ->. intros [= ->]. left.
  - intros H. right. by apply IH.
Qed.

(** Every point layer keeps all the columns of the table but [z], in their
    order, restricted to the rows of one z-level of the table; a rectangular
    table gives rectangular layers. *)
Theorem split_transcripts_layer_shape (transcripts : DataFrame) (z : list cell)
    (points : dict DataFrame) :
  lookup_column "z" (columns transcripts) = Some z →
  rectangular transcripts →
  split_transcripts transcripts = Ok points →
  Forall (λ kv : string * DataFrame,
            ∃ z_level, z_level ∈ z ∧ kv.2 = z_layer transcripts z z_level ∧
              column_names kv.2 = filter (λ n, n ≠ "z") (column_names transcripts) ∧
              rectangular kv.2 ∧
              length (index kv.2) = length (List.filter (λ c, cell_eqb c z_level) z))
         points.
Proof.
  intros Hz Hrect. unfold split_transcripts, getitem. rewrite Hz. cbn [bind].
  intros (visited & Hsort & Hfold)%bind_Ok.
  assert (Hlen : length z = length (index transcripts)).
  { unfold rectangular in Hrect. rewrite Forall_forall in Hrect.
    by apply (Hrect _ (lookup_column_elem_of _ _ _ Hz)). }
  assert (Hvis : ∀ l, l ∈ visited → l ∈ z).
  { intros l Hl. apply unique_elem_of. rewrite <- value_counts_index_Permutation.
    by eapply sorted_elem_of. }
  eapply (foldM_invariant (add_z_level transcripts z) _ visited);
    [|constructor|exact Hfold].
  intros d l d' Hl Hd Hstep. unfold add_z_level in Hstep.
  rewrite (z_level_subset_layer _ _ _ Hz) in Hstep. cbn [bind] in Hstep.
  apply bind_Ok in Hstep as (i & _ & [= <-]).
  apply Forall_dict_set; [|done]. simpl. exists l.
  destruct (z_layer_shape transcripts z l Hlen Hrect) as (? & ? & ?).
  split_and!; auto.
Qed.
End layers.

Section layers_examples.
Import Merscope Samples.

Lemma split_transcripts_layer_shape_witness :
  ∃ points,
    split_transcripts sample_transcripts = Ok points ∧
    Forall (λ kv : string * DataFrame,
              column_names kv.2 = ["x"; "y"; "gene"] ∧ rectangular kv.2) points.
Proof.
  destruct (split_transcripts sample_transcripts) as [points|e] eqn:E;
    [|vm_compute in E; discriminate].
  exists points. split; [done|].
  assert (H := split_transcripts_layer_shape sample_transcripts
                 [Float 1; Float 0; Float (3 # 2); Float 0; Float 2] points eq_refl).
  eapply Forall_impl; [apply H; [by repeat constructor|exact E]|].
  intros kv (l & _ & _ & Hc & Hr & _). split; [|done]. rewrite Hc. by vm_compute.
Defined.
End layers_examples.

(** ** MERSCOPE: the point layers partition the table *)

Section partition.
Import Merscope.

Lemma dict_set_fresh {V} k (v : V) (d : dict V) :
  k ∉ keys d → dict_set k v d = d ++ [(k, v)].
Proof.
  induction d as [|[k' v'] d IH]; simpl; [done|].
  intros [Hne Hk]%not_elem_of_cons.
  destruct (String.eqb k' k) eqn:E.
  - apply String.eqb_eq in E. congruence.
  - by rewrite IH.
Qed.

(** Rows keyed into distinct classes: selecting class by class rearranges
    the rows. *)
Lemma select_by_key {A} (f : cell → Z) (ks : list Z) (z : list cell) (idx : list A) :
  NoDup ks → (∀ c, c ∈ z → f c ∈ ks) → length z = length idx →
  concat (map (λ k, select (map (λ c, (f c =? k)%Z) z) idx) ks) ≡ₚ idx.
Proof.
  intros Hnd. revert idx. induction z as [|c z IH]; intros [|i idx] Hcov Hlen;
    simpl in Hlen; try done.
  - clear. induction ks; simpl; [done|]. done.
  - assert (Hone : ∀ ks', NoDup ks' →
              concat (map (λ k, select (map (λ c0, (f c0 =? k)%Z) (c :: z)) (i :: idx)) ks')
              ≡ₚ (if decide (f c ∈ ks') then [i] else [])
                 ++ concat (map (λ k, select (map (λ c0, (f c0 =? k)%Z) z) idx) ks')).
    { clear. induction ks' as [|k ks' IH']; intros Hnd.
      - destruct (decide (f c ∈ [])) as [H|H]; [by apply elem_of_nil in H|done].
      - apply NoDup_cons in Hnd as [Hk Hnd]. cbn [map concat select].
        rewrite (IH' Hnd).
        destruct (decide (f c ∈ ks')) as [Hin|Hin];
          destruct (decide (f c ∈ k :: ks')) as [Hin'|Hin'];
          destruct (Z.eqb_spec (f c) k) as [E|E]; subst; simpl;
          try done; try (destruct Hin'; by (left || right)).
        + by rewrite <- Permutation_middle.
        + apply elem_of_cons in Hin' as [?|?]; done. }
    rewrite (Hone ks Hnd). rewrite decide_True by (apply Hcov; left). simpl.
    constructor. apply IH; [|by injection Hlen].
    intros c' Hc'. apply Hcov. by right.
Qed.

Lemma NoDup_map_filter {A B} (f : A → B) (p : A → bool) (l : list A) :
  NoDup (map f l) → NoDup (map f (List.filter p l)).
Proof.
  induction l as [|x l IH]; simpl; [done|].
  intros [Hx Hl]%NoDup_cons. destruct (p x); simpl; [|by apply IH].
  apply NoDup_cons. split; [|by apply IH].
  intros (y & E & Hy)%list_elem_of_fmap. apply Hx. rewrite E.
  apply list_elem_of_fmap_2. by apply list_elem_of_In, filter_In, proj1, list_elem_of_In in Hy.
Qed.

Section distinct.
Context (z : list cell).
Hypothesis Hnum : Forall (λ c, is_numeric c = true) z.
Hypothesis Hint : ∀ a b, a ∈ z → b ∈ z → int_value a = int_value b → cell_eqb a b = true.

Lemma cell_eqb_int a b :
  a ∈ z → b ∈ z → cell_eqb a b = (int_value a =? int_value b)%Z.
Proof.
  intros Ha Hb. rewrite Forall_forall in Hnum.
  destruct (Z.eqb_spec (int_value a) (int_value b)) as [E|E]; [by apply Hint|].
  destruct (cell_eqb a b) eqn:Eb; [|done].
  destruct E. apply cell_eqb_int_value; [by apply Hnum|done].
Qed.

Lemma unique_distinct_ints : NoDup (map int_value (unique z)).
Proof.
  assert (Hsub : ∀ l, (∀ c, c ∈ l → c ∈ z) → NoDup (map int_value (unique l))).
  { induction l as [|x l IH]; intros Hl; simpl; [constructor|].
    apply NoDup_cons. split.
    - intros (y & E & Hy)%list_elem_of_fmap.
      apply list_elem_of_In, filter_In in Hy as [Hy Hf]. apply list_elem_of_In in Hy.
      rewrite cell_eqb_int, E, Z.eqb_refl in Hf; [done|apply Hl; left|].
      apply Hl. right. by apply unique_elem_of.
    - apply NoDup_map_filter, IH. intros c Hc. apply Hl. by right. }
  by apply Hsub.
Qed.
End distinct.

Lemma add_z_levels_fresh transcripts z (z_levels : list cell) :
  lookup_column "z" (columns transcripts) = Some z →
  ∀ acc : dict DataFrame,
  Forall (λ c, is_numeric c = true) z_levels →
  NoDup (map int_value z_levels) →
  (∀ l, l ∈ z_levels → transcripts_layer_name (int_value l) ∉ keys acc) →
  foldM (add_z_level transcripts z) z_levels acc
  = Ok (acc ++ map (λ l, (transcripts_layer_name (int_value l),
                          z_layer transcripts z l)) z_levels).
Proof.
  intros Hz. induction z_levels as [|l ls IH]; intros acc Hnum Hnd Hfresh; simpl.
  - by rewrite app_nil_r.
  - apply Forall_cons in Hnum as [Hl Hnum]. apply NoDup_cons in Hnd as [Hi Hnd].
    unfold add_z_level at 1. rewrite (z_level_subset_layer _ _ _ Hz). cbn [bind].
    rewrite (py_int_numeric l Hl). cbn [bind].
    rewrite dict_set_fresh by (apply Hfresh; left).
    rewrite IH; [by rewrite <- app_assoc|done|done|].
    intros l' Hl'. unfold keys. rewrite map_app. simpl.
    intros [Hin|Hs]%elem_of_app.
    + apply (Hfresh l'); [by right|done].
    + apply list_elem_of_singleton, transcripts_layer_name_inj in Hs.
      apply Hi. rewrite <- Hs. by apply list_elem_of_fmap_2.
Qed.

(** When distinct z values have distinct integer parts, the point layers
    partition the table: there is one layer per distinct z value and,
    taken together, the rows of the layers are the rows of the table, none
    lost and none repeated. *)
Theorem split_transcripts_partition (transcripts : DataFrame) (z : list cell) :
  lookup_column "z" (columns transcripts) = Some z →
  Forall (λ c, is_numeric c = true) z →
  (∀ a b, a ∈ z → b ∈ z → int_value a = int_value b → cell_eqb a b = true) →
  length z = length (index transcripts) →
  ∃ points,
    split_transcripts transcripts = Ok points ∧
    length points = length (unique z) ∧
    concat (map (λ kv : string * DataFrame, index kv.2) points) ≡ₚ index transcripts.
Proof.
  intros Hz Hnum Hint Hlen.
  assert (Hvc : Forall (λ c, is_numeric c = true ∧ c ∈ z) (value_counts_index z)).
  { apply Forall_forall. intros c Hc.
    rewrite value_counts_index_Permutation in Hc.
    apply unique_elem_of in Hc. split; [|done].
    rewrite Forall_forall in Hnum. by apply Hnum. }
  destruct (sorted_total py_int int_value (value_counts_index z))
    as (visited & Hsorted & Hperm & _).
  { eapply Forall_impl; [exact Hvc|]. intros c [Hc _]. by apply py_int_numeric. }
  assert (Hpu : visited ≡ₚ unique z) by (by rewrite Hperm, value_counts_index_Permutation).
  assert (Hvz : ∀ l, l ∈ visited → l ∈ z).
  { intros l Hl. rewrite Hpu in Hl. by apply unique_elem_of. }
  assert (Hnd : NoDup (map int_value visited)).
  { rewrite Hpu. by apply unique_distinct_ints. }
  eexists. split_and!.
  - unfold split_transcripts, getitem. rewrite Hz. cbn [bind]. rewrite Hsorted. cbn [bind].
    apply (add_z_levels_fresh transcripts z visited Hz []); [|done|].
    + apply Forall_forall. intros l Hl. rewrite Forall_forall in Hnum. by apply Hnum, Hvz.
    + intros l _. apply not_elem_of_nil.
  - simpl. by rewrite length_map, Hpu.
  - simpl. rewrite map_map. simpl.
    etrans; [|apply (select_by_key int_value (map int_value visited) z (index transcripts))];
      [|done| |done].
    + rewrite map_map. apply reflexive_eq. f_equal. apply map_ext_in.
      intros l Hl%list_elem_of_In. unfold at_level. f_equal. apply map_ext_in.
      intros c Hc%list_elem_of_In. apply (cell_eqb_int z Hnum Hint); [done|by apply Hvz].
    + intros c Hc. destruct (unique_covers z c Hnum Hc) as (l & Hl & <-).
      apply list_elem_of_fmap_2. by rewrite Hpu.
Qed.
End partition.

Section partition_examples.
Import Merscope Samples Cases.

Lemma split_transcripts_partition_witness :
  ∃ points,
    split_transcripts whole_transcripts = Ok points ∧
    length points = 3 ∧
    concat (map (λ kv : string * DataFrame, index kv.2) points)
      ≡ₚ [Int 0; Int 1; Int 2; Int 3; Int 4].
Proof.
  apply (split_transcripts_partition whole_transcripts
           [Float 1; Float 0; Float 1; Float 0; Float 2]).
  - reflexivity.
  - by repeat constructor.
  - intros a b Ha Hb.
    repeat (apply elem_of_cons in Ha as [->|Ha]; [|]);
      try (by apply elem_of_nil in Ha);
      repeat (apply elem_of_cons in Hb as [->|Hb]; [|]);
      try (by apply elem_of_nil in Hb);
      by vm_compute.
  - reflexivity.
Defined.
End partition_examples.

(** ** MERSCOPE: the paths of a post-processing run *)

Section resolver.
Import Merscope.
Context (K : MerscopeKeys) (exists_ : Path → bool).

(** For a directory-form [vpt_outputs] the resolver returns exactly when one
    of the two candidates exists; the boundary path is then the cellpose
    candidate if it exists and the watershed one otherwise, it exists, and
    the counts and the metadata are the default names under that directory,
    whatever the root path is. *)
Theorem get_file_paths_directory (path : Path) (vpt_outputs : vpt_outputs_t)
    (dir : Path) :
  vpt_outputs = VptPath dir ∨ (∃ s, vpt_outputs = VptStr s ∧ dir = of_str s) →
  let cellpose := dir // CELLPOSE_BOUNDARIES K in
  let watershed := dir // WATERSHED_BOUNDARIES K in
  let resolved b :=
    Ok (PPath (dir // COUNTS_FILE K), PPath (dir // CELL_METADATA_FILE K), PPath b) in
  (exists_ cellpose = true →
   _get_file_paths K exists_ path vpt_outputs = resolved cellpose) ∧
  (exists_ cellpose = false → exists_ watershed = true →
   _get_file_paths K exists_ path vpt_outputs = resolved watershed) ∧
  (∀ c o b, _get_file_paths K exists_ path vpt_outputs = Ok (c, o, b) →
     exists_ (Path_ b) = true ∧
     (b = PPath cellpose ∨ exists_ cellpose = false ∧ b = PPath watershed) ∧
     c = PPath (dir // COUNTS_FILE K) ∧ o = PPath (dir // CELL_METADATA_FILE K)).
Proof.
  intros Hv cellpose watershed resolved.
  assert (Hrun : _get_file_paths K exists_ path vpt_outputs
            = _get_file_paths K exists_ path (VptPath dir)).
  { by destruct Hv as [->|(s & -> & ->)]. }
  rewrite Hrun. cbn [_get_file_paths List.filter]. fold cellpose watershed.
  destruct (exists_ cellpose) eqn:Ec, (exists_ watershed) eqn:Ew; simpl;
    split_and!; try done; intros c o b [= <- <- <-]; simpl; split_and!; auto.
Qed.

(** For a mapping the three paths are the values of the three keys, as they
    are, whatever exists on disk; a missing key raises [KeyError] for the
    first one missing, in the order counts, metadata, boundaries. *)
Theorem get_file_paths_mapping (path : Path) (d : dict pathlike) :
  _get_file_paths K exists_ path (VptDict d)
  = match dict_get (VPT_NAME_COUNTS K) d, dict_get (VPT_NAME_OBS K) d,
          dict_get (VPT_NAME_BOUNDARIES K) d with
    | Some c, Some o, Some b => Ok (c, o, b)
    | None, _, _ => Raise (KeyError (VPT_NAME_COUNTS K))
    | Some _, None, _ => Raise (KeyError (VPT_NAME_OBS K))
    | Some _, Some _, None => Raise (KeyError (VPT_NAME_BOUNDARIES K))
    end.
Proof.
  cbn [_get_file_paths]. unfold dict_getitem.
  by destruct (dict_get (VPT_NAME_COUNTS K) d), (dict_get (VPT_NAME_OBS K) d),
       (dict_get (VPT_NAME_BOUNDARIES K) d).
Qed.
End resolver.

Section resolver_examples.
Import Merscope Samples Cases.

Lemma get_file_paths_directory_witness :
  _get_file_paths sample_keys watershed_only (of_str "data/region_0") (VptStr "vpt")
  = Ok (PPath (of_str "vpt" // "cell_by_gene.csv"),
        PPath (of_str "vpt" // "cell_metadata.csv"),
        PPath (of_str "vpt" // "watershed_micron_space.parquet")).
Proof.
  destruct (get_file_paths_directory sample_keys watershed_only (of_str "data/region_0")
              (VptStr "vpt") (of_str "vpt")) as (_ & H & _).
  - right. by exists "vpt".
  - by apply H.
Defined.
End resolver_examples.

(** ** MERSCOPE: the keys of the table *)

Section table_facts.
Import Merscope.
Context (K : MerscopeKeys).

Lemma getitems_two_Ok (df : DataFrame) a b fr :
  getitems df [a; b] = Ok fr →
  ∃ ca cb, lookup_column a (columns df) = Some ca ∧
           lookup_column b (columns df) = Some cb ∧
           fr = {| index := index df; columns := [(a, ca); (b, cb)] |}.
Proof.
  unfold getitems, getitem. simpl.
  destruct (lookup_column a (columns df)) as [ca|]; [|done].
  destruct (lookup_column b (columns df)) as [cb|]; [|done].
  simpl. intros [= <-]. by exists ca, cb.
Qed.

(** The table keys its rows by the metadata index: the instance column holds
    the index itself, the spatial attribute holds the two centre columns of
    the metadata, and the matrix, the blanks and the metadata all keep their
    own rows.  The metadata columns other than region and instance are
    untouched. *)
Theorem expression_table_keys (path : Path) (data obs_ : DataFrame) (t : Table) :
  expression_table K path data obs_ = Ok t →
  let adata := table_adata t in
  instance_key t = INSTANCE_KEY K ∧
  lookup_column (INSTANCE_KEY K) (columns (obs adata)) = Some (index obs_) ∧
  index (obs adata) = index obs_ ∧
  length (index (X adata)) = length (index obs_) ∧
  (∃ cx cy,
     lookup_column (CELL_X K) (columns obs_) = Some cx ∧
     lookup_column (CELL_Y K) (columns obs_) = Some cy ∧
     dict_get "spatial" (obsm adata)
       = Some {| index := index obs_;
                 columns := [(CELL_X K, cx); (CELL_Y K, cy)] |}) ∧
  keys (obsm adata) = ["blank"; "spatial"] ∧
  (∀ n, n ≠ "region" → n ≠ INSTANCE_KEY K →
        lookup_column n (columns (obs adata)) = lookup_column n (columns obs_)).
Proof.
  unfold expression_table, AnnData_.
  destruct (Nat.eqb _ _) eqn:Elen; simpl; [|done].
  apply Nat.eqb_eq in Elen.
  destruct (getitems _ _) as [sp|e] eqn:Esp; simpl; [|done].
  apply getitems_two_Ok in Esp as (cx & cy & Hx & Hy & ->).
  intros [= <-]. simpl. split_and!; try done.
  - apply lookup_set_column_eq.
  - by exists cx, cy.
  - intros n Hr Hi. rewrite !lookup_set_column_ne by done. done.
Qed.
End table_facts.

Section table_examples.
Import Merscope Samples.

Lemma expression_table_keys_witness :
  ∃ t, expression_table sample_keys (of_str "data/region_0") sample_counts sample_obs = Ok t ∧
       lookup_column "EntityID" (columns (obs (table_adata t))) = Some [Str "7"; Str "8"] ∧
       keys (obsm (table_adata t)) = ["blank"; "spatial"].
Proof.
  destruct (expression_table sample_keys (of_str "data/region_0") sample_counts sample_obs)
    as [t|e] eqn:E; [|vm_compute in E; discriminate].
  exists t.
  destruct (expression_table_keys sample_keys _ _ _ t E) as (_ & Hi & _ & _ & _ & Hk & _).
  by split_and!.
Defined.
End table_examples.

(** ** MERSCOPE: the shape of the boundaries *)

Section boundary_facts.
Import Merscope.
Context (K : MerscopeKeys) (float_repr : Q → string).

Lemma length_select_same {A B} (mask : list bool) (l : list A) (l' : list B) :
  length l = length l' → length (select mask l) = length (select mask l').
Proof.
  revert l l'. induction mask as [|b mask IH]; intros [|x l] [|y l']; simpl; try done.
  intros [= E]. destruct b; simpl; by rewrite (IH l l').
Qed.

(** The shape layer of a rectangular boundary table is rectangular, with
    one index entry per kept row; it has the columns of the table in their
    order, the geometry column under the name [geometry]. *)
Theorem z0_boundaries_shape (geo_df r : GeoDataFrame) :
  rectangular (frame geo_df) →
  z0_boundaries K float_repr geo_df = Ok r →
  rectangular (frame r) ∧
  geometry_name r = "geometry" ∧
  column_names (frame r)
    = map (λ n, if String.eqb n (geometry_name geo_df) then "geometry" else n)
          (column_names (frame geo_df)).
Proof.
  intros Hrect. unfold z0_boundaries, rename_geometry.
  destruct (existsb _ _) eqn:Eg; [done|]. cbn [bind].
  intros (zi & Hzi & H)%bind_Ok. cbn [frame geometry_name] in H.
  apply bind_Ok in H as (inst & Hinst & [= <-]). cbn [frame geometry_name].
  unfold getitem in Hzi, Hinst. cbn [frame mask_rows columns index] in Hzi, Hinst.
  rewrite lookup_column_mask in Hinst.
  destruct (lookup_column (Z_INDEX K) _) as [zi'|] eqn:Ez; [|done]. injection Hzi as ->.
  destruct (lookup_column (INSTANCE_KEY K) _) as [inst'|] eqn:Ei; [|done].
  injection Hinst as <-.
  unfold rectangular, column_names in *. simpl.
  rewrite Forall_forall in Hrect.
  assert (Hcols : ∀ n c, (n, c) ∈ map (λ nc : string * list cell,
                     (if String.eqb nc.1 (geometry_name geo_df) then "geometry" else nc.1,
                      nc.2)) (columns (frame geo_df)) →
                   length c = length (index (frame geo_df))).
  { intros n c ([n' c'] & [= -> ->] & Hin)%list_elem_of_fmap. by apply (Hrect _ Hin). }
  split_and!.
  - apply Forall_forall. intros nc ([n c] & -> & Hin)%list_elem_of_fmap. simpl.
    rewrite length_map.
    apply length_select_same.
    rewrite (Hcols _ _ Hin). symmetry. by apply (Hcols _ _ (lookup_column_elem_of _ _ _ Ei)).
  - done.
  - rewrite !map_map. by apply map_ext.
Qed.
End boundary_facts.

Section boundary_examples.
Import Merscope Samples.

Lemma z0_boundaries_shape_witness :
  ∃ r, z0_boundaries sample_keys sample_float_repr sample_boundaries = Ok r ∧
       rectangular (frame r) ∧
       column_names (frame r) = ["EntityID"; "ZIndex"; "geometry"].
Proof.
  destruct (z0_boundaries sample_keys sample_float_repr sample_boundaries)
    as [r|e] eqn:E; [|vm_compute in E; discriminate].
  exists r.
  destruct (z0_boundaries_shape sample_keys sample_float_repr sample_boundaries r)
    as (Hr & _ & Hc); [by repeat constructor|exact E|].
  by split_and!.
Defined.
End boundary_examples.

(** ** Visium: the pixel values *)

Section pixels.
Import Visium.

Lemma Qle_bool_false (a b : Q) : Qle_bool a b = false → (b < a)%Q.
Proof.
  intros H. apply Qnot_le_lt. intros Hc. apply Qle_bool_iff in Hc. congruence.
Qed.

(** The image step in closed form: the dtype is tested first, the minimum
    of an image without a value raises before the assertion is evaluated,
    and otherwise the assertion holds exactly when every value lies within
    [0, 1]. *)
Theorem hires_image_outcome (hires : NDArray) :
  hires_image hires
  = if negb (dtype_eqb (arr_dtype hires) float32) then Raise (AssertionError "")
    else match flat hires with
         | [] => Raise (zero_size "minimum")
         | _ :: _ =>
             if forallb (λ v, Qle_bool 0 v && Qle_bool v 1) (flat hires)
             then Ok {| da_values := rescale_uint8 hires; da_dims := ["y"; "x"; "c"] |}
             else Raise (AssertionError "")
         end.
Proof.
  destruct (dtype_eqb (arr_dtype hires) float32) eqn:Ed; simpl.
  - destruct (flat hires) as [|v vs] eqn:Ef.
    + unfold hires_image, np_min. by rewrite Ed, Ef.
    + destruct (forallb _ _) eqn:Eall.
      * apply hires_image_Ok. split_and!; [by destruct (arr_dtype hires)|by rewrite Ef| |done].
        unfold normalized. rewrite Ef. apply Forall_forall. intros x Hx.
        rewrite forallb_forall in Eall. apply list_elem_of_In, Eall in Hx.
        apply andb_true_iff in Hx as [H0 H1]. by split; apply Qle_bool_iff.
      * destruct (hires_image hires) as [img|e] eqn:E.
        -- apply hires_image_Ok in E as (_ & _ & Hn & _). exfalso.
           unfold normalized in Hn. rewrite Ef in Hn.
           assert (forallb (λ v0, Qle_bool 0 v0 && Qle_bool v0 1) (v :: vs) = true);
             [|congruence].
           apply forallb_forall. intros x Hx%list_elem_of_In.
           rewrite Forall_forall in Hn. destruct (Hn x Hx) as [H0 H1].
           apply andb_true_iff. by split; apply Qle_bool_iff.
        -- f_equal. apply (hires_image_Raise hires e E). left. by rewrite Ef.
  - unfold hires_image. by rewrite Ed.
Qed.

Lemma Qnum_nonneg (q : Q) : (0 <= q)%Q → (0 ≤ Qnum q)%Z.
Proof. unfold Qle. simpl. lia. Qed.

(** A value within [0, 1] is stored as the integer part of 255 times the
    value: nothing wraps around, 0 is stored as 0 and 1 as 255, and a larger
    value is never stored as a smaller number. *)
Lemma to_uint8_normalized (v w : Q) :
  (0 <= v)%Q → (v <= w)%Q → (w <= 1)%Q →
  to_uint8 (v * 255) = inject_Z (Qfloor (v * 255)) ∧
  (0 ≤ Qfloor (v * 255) ≤ 255)%Z ∧
  (Qfloor (v * 255) ≤ Qfloor (w * 255))%Z ∧
  to_uint8 (0 * 255) = 0%Q ∧ to_uint8 (1 * 255) = 255%Q.
Proof.
  intros H0 Hvw H1.
  assert (Hv1 : (v <= 1)%Q) by (by eapply Qle_trans).
  assert (Hlo : (0 <= v * 255)%Q) by (apply Qmult_le_0_compat; done).
  assert (Hhi : (v * 255 <= 255)%Q).
  { assert (H := Qmult_le_compat_r v 1 255 Hv1). exact (H ltac:(done)). }
  assert (Hf : (0 ≤ Qfloor (v * 255) ≤ 255)%Z).
  { split.
    - change 0%Z with (Qfloor 0). by apply Qfloor_resp_le.
    - change 255%Z with (Qfloor 255). by apply Qfloor_resp_le. }
  split; [|split; [exact Hf|split; [|split; by vm_compute]]].
  - unfold to_uint8. f_equal.
    rewrite Z.quot_div_nonneg; [|by apply Qnum_nonneg|done].
    change (Qnum (v * 255) / Z.pos (Qden (v * 255)))%Z with (Qfloor (v * 255)).
    apply Z.mod_small. lia.
  - apply Qfloor_resp_le. by apply Qmult_le_compat_r.
Qed.

(** On an image whose values lie within [0, 1], rescaling keeps the shape
    (the same rows, pixels per row and channels per pixel) and stores, for
    every value, the integer part of 255 times the value, a number from 0 to
    255; a larger value is never stored as a smaller number. *)
Theorem rescale_uint8_normalized (a : NDArray) :
  normalized a →
  map (map (length (A:=Q))) (arr_data (rescale_uint8 a))
    = map (map (length (A:=Q))) (arr_data a) ∧
  flat (rescale_uint8 a) = map (λ v, inject_Z (Qfloor (v * 255))) (flat a) ∧
  Forall (λ v, (0 ≤ Qfloor (v * 255) ≤ 255)%Z) (flat a) ∧
  (∀ v w, v ∈ flat a → w ∈ flat a → (v <= w)%Q →
          (to_uint8 (v * 255) <= to_uint8 (w * 255))%Q).
Proof.
  intros Hn. unfold normalized in Hn. rewrite Forall_forall in Hn.
  split_and!.
  - simpl. rewrite map_map. apply map_ext. intros row.
    rewrite map_map. apply map_ext. intros px. apply length_map.
  - rewrite flat_rescale_uint8. apply map_ext_in. intros v Hv%list_elem_of_In.
    destruct (Hn v Hv) as [H0 H1].
    by destruct (to_uint8_normalized v v H0 (Qle_refl v) H1) as (-> & _).
  - apply Forall_forall. intros v Hv. destruct (Hn v Hv) as [H0 H1].
    by destruct (to_uint8_normalized v v H0 (Qle_refl v) H1) as (_ & ? & _).
  - intros v w Hv Hw Hvw.
    destruct (Hn v Hv) as [H0 _]. destruct (Hn w Hw) as [H0' H1].
    destruct (to_uint8_normalized v w H0 Hvw H1) as (-> & _ & Hle & _).
    destruct (to_uint8_normalized w w H0' (Qle_refl w) H1) as (-> & _).
    by rewrite <- Zle_Qle.
Qed.
End pixels.

Section pixels_examples.
Import Visium Samples.

Lemma rescale_uint8_normalized_witness :
  flat (rescale_uint8 sample_hires) = [0%Q; inject_Z 127; inject_Z 255].
Proof.
  destruct (rescale_uint8_normalized sample_hires) as (_ & -> & _).
  - unfold normalized. repeat constructor; by vm_compute.
  - reflexivity.
Defined.
End pixels_examples.

(** ** Visium: what a returned dataset is made of *)

Section visium_reader.
Import Visium.
Context {Circles Table : Type}.
Context (make_unique : list string → list string).
Context (table_update_anndata :
           Expression → string → string → string → string → list Z → result Table).
Context (circles_anndata_from_coordinates :
           list (Q * Q) → Q → string → list Z → result Circles).

Abbreviation reader :=
  (read_visium make_unique table_update_anndata circles_anndata_from_coordinates).

(** What a returned dataset is made of.  The image and the circles are
    stored under one name, the given coordinate system name or else the
    library identifier; the table and the circles are built with the same
    instance key and the same instance values, the positions 0 to n-1 of the
    spots, the table under the region [/points/<name>] and the circles with
    half the full-resolution spot diameter as radius; the circles carry no
    transform. *)
Theorem read_visium_assembly (adata : AnnData) (coordinate_system_name : option string)
    (sd : SpatialData Circles Table) :
  reader adata coordinate_system_name = Ok sd →
  ∃ lib meta diameter circles img,
    uns_spatial adata = [(lib, meta)] ∧
    let csn := default lib coordinate_system_name in
    let n := length (obs_names adata) in
    keys (images sd) = [csn] ∧ points sd = [(csn, circles)] ∧
    images sd = [(csn, img)] ∧ da_dims img = ["y"; "x"; "c"] ∧
    arr_dtype (da_values img) = uint8 ∧
    table_update_anndata
      {| expr_X := X adata;
         expr_obs_names := make_unique (obs_names adata);
         expr_var_names := make_unique (var_names adata) |}
      ("/points/" +:+ csn) "library_id" "visium_spot_id" ("/points/" +:+ csn)
      (arange n) = Ok (table sd) ∧
    dict_get "spot_diameter_fullres" (lib_scalefactors meta) = Some diameter ∧
    circles_anndata_from_coordinates (obsm_spatial adata) (diameter / 2)%Q
      "visium_spot_id" (arange n) = Ok circles ∧
    arange n = map Z.of_nat (seq 0 n) ∧
    map (λ t, (t.1.1, t.1.2)) (transformations sd)
      = [("/images/" +:+ csn, csn); ("/points/" +:+ csn, csn)] ∧
    (∃ t, map snd (transformations sd) = [Some t; None]).
Proof.
  unfold read_visium. intros H.
  destruct (uns_spatial adata) as [|[lib meta] [|? ?]] eqn:Eu; try done.
  cbn [keys map fst length Nat.eqb assert_ bind] in H.
  apply bind_Ok in H as (expression & Ht & H).
  apply bind_Ok in H as (meta' & Hmeta & H).
  unfold dict_getitem in Hmeta. cbn [dict_get] in Hmeta.
  rewrite String.eqb_refl in Hmeta. injection Hmeta as <-.
  apply bind_Ok in H as (diameter & Hd%dict_getitem_Ok & H).
  apply bind_Ok in H as (circles & Hc & H).
  apply bind_Ok in H as (hires & Hh & H).
  apply bind_Ok in H as (img & Himg & H).
  apply bind_Ok in H as (scalef & Hs & H).
  apply bind_Ok in H as (factors & Hf & H).
  injection H as <-.
  apply hires_image_Ok in Himg as (_ & _ & _ & ->).
  exists lib, meta, diameter, circles,
    {| da_values := rescale_uint8 hires; da_dims := ["y"; "x"; "c"] |}.
  assert (Ecsn : match coordinate_system_name with Some n0 => n0 | None => lib end
                 = default lib coordinate_system_name)
    by (by destruct coordinate_system_name).
  rewrite Ecsn in *. cbn [images points table transformations].
  split_and!; try done. by eexists.
Qed.

(** The image scale is uniform and never built from a scale factor of
    zero: in a returned dataset the hires scale factor of the library is not
    zero and the scale vector has three entries, a leading 1 and then one
    and the same number twice; with a scale factor of zero the reader
    raises. *)
Theorem read_visium_scale_uniform (adata : AnnData)
    (coordinate_system_name : option string) (lib : string) (meta : Library)
    (scalef : Q) :
  uns_spatial adata = [(lib, meta)] →
  dict_get "tissue_hires_scalef" (lib_scalefactors meta) = Some scalef →
  (∀ sd, reader adata coordinate_system_name = Ok sd →
     ¬ (scalef == 0)%Q ∧
     ∃ t f, map snd (transformations sd) = [Some t; None] ∧
            scale t = [1%Q; f; f]) ∧
  ((scalef == 0)%Q → raises (reader adata coordinate_system_name)).
Proof.
  intros Huns Hs.
  assert (Hok : ∀ sd, reader adata coordinate_system_name = Ok sd →
     ¬ (scalef == 0)%Q ∧
     ∃ t f, map snd (transformations sd) = [Some t; None] ∧
            scale t = [1%Q; f; f]).
  { intros sd Hrun.
    apply read_visium_Ok_inv in Hrun
      as (lib' & meta' & hires & img & s & f & Hk & Hm & _ & _ & Hs' & Hf & _ & Ht).
    destruct (sole_library _ _ _ _ _ Huns Hk Hm) as [-> ->].
    rewrite Hs in Hs'. injection Hs' as <-.
    unfold scale_factors, truediv in Hf.
    destruct (Qeq_bool scalef 0) eqn:E; [done|].
    cbn [bind app repeat] in Hf. injection Hf as <-.
    split.
    - intros E0. apply Qeq_bool_iff in E0. congruence.
    - exists {| scale := [1%Q; (1 / scalef)%Q; (1 / scalef)%Q] |}, (1 / scalef)%Q.
      by rewrite Ht. }
  split; [done|].
  intros E. apply not_Ok_raises. intros sd Hrun. by destruct (Hok sd Hrun).
Qed.
End visium_reader.

Section visium_reader_examples.
Import Visium Samples.

Lemma read_visium_assembly_witness :
  ∃ sd circles,
    sample_read_visium (sample_adata [("lib1", sample_library sample_hires)]) None
      = Ok sd ∧
    keys (images sd) = ["lib1"] ∧ points sd = [("lib1", circles)] ∧
    sample_circles [(100%Q, 200%Q); (300%Q, 400%Q)] (90 / 2)%Q "visium_spot_id" [0; 1]%Z
      = Ok circles.
Proof.
  destruct (sample_read_visium (sample_adata [("lib1", sample_library sample_hires)]) None)
    as [sd|e] eqn:E; [|vm_compute in E; discriminate].
  destruct (read_visium_assembly (λ names, names) sample_table_update sample_circles
              (sample_adata [("lib1", sample_library sample_hires)]) None sd E)
    as (lib & meta & diameter & circles & img & Hu & Hk & Hp & _ & _ & _ & _ & Hd & Hc & _).
  injection Hu as <- <-. injection Hd as <-.
  exists sd, circles. by split_and!.
Defined.

Lemma read_visium_scale_uniform_witness :
  ∃ sd t f,
    sample_read_visium (sample_adata [("lib1", sample_library sample_hires)]) None
      = Ok sd ∧
    map snd (transformations sd) = [Some t; None] ∧
    scale t = [1%Q; f; f].
Proof.
  destruct (sample_read_visium (sample_adata [("lib1", sample_library sample_hires)]) None)
    as [sd|e] eqn:E; [|vm_compute in E; discriminate].
  destruct (read_visium_scale_uniform (λ names, names) sample_table_update sample_circles
              (sample_adata [("lib1", sample_library sample_hires)]) None
              "lib1" (sample_library sample_hires) (1 # 2) eq_refl eq_refl)
    as [Hok _].
  destruct (Hok sd E) as (_ & t & f & Ht & Hs).
  by exists sd, t, f.
Defined.
End visium_reader_examples.
